(** * recognite: label-disjoint splitting, score matrix and retrieval accuracy

    A shallow embedding of
      - [metrics/accuracy.py]              ([accuracy], [top_k_accuracy],
                                            [top_all_accuracy]),
      - [utils/inference/score_matrix.py]  ([get_score_matrix]),
      - [data/train_val_datasets.py]       ([get_train_val_datasets]),
    with the properties the specification states about them.

    Conventions.
      - A 2-D tensor is a record of its column count and its rows; a 1-D
        tensor of integer labels is a [list Z].
      - Exceptions are values of [error]; a fallible computation returns a
        [result].  The two [assert] statements of [get_score_matrix] get a
        constructor each, named after the specification's taxonomy.
      - Embedding entries are kept abstract (class [Scalar]), so that no
        property depends on the arithmetic of floating point numbers.
      - The quotient computed by [top_all_accuracy] is kept exact, as a
        rational; the division by zero yields [NaN] as in torch. *)

From Stdlib Require Import ZArith QArith Lia.
From stdpp Require Import base list gmap strings.

Local Open Scope Z_scope.

(** ** Errors and results *)

Inductive error : Type :=
| InvalidModelState   (* [assert not model.training] *)
| ShapeMismatch       (* [assert len(labels) == len(out)] *)
| InvalidK            (* raised by [top_k] *)
| InvalidFoldConfig   (* raised by [label_based_k_fold_trainval_split] *)
| DegenerateLabelSplit (* raised by [split_gallery_query] *)
| EmptyInput          (* of the specification's taxonomy; no code raises it *)
| RuntimeError.       (* raised inside torch: empty [cat], size mismatch, bad index *)

Inductive result (A : Type) : Type :=
| Ok (a : A)
| Err (e : error).
Arguments Ok {A} a.
Arguments Err {A} e.

#[global] Instance result_ret : MRet result := fun _ a => Ok a.
#[global] Instance result_bind : MBind result := fun _ _ f m =>
  match m with
  | Ok a => f a
  | Err e => Err e
  end.

(** ** Tensors *)

Record tensor2 (A : Type) : Type := Tensor2 {
  ncols : nat;
  rows : list (list A)
}.
Arguments Tensor2 {A} ncols rows.
Arguments ncols {A} t.
Arguments rows {A} t.

(** [len(t)]: the size of the first dimension. *)
Definition len2 {A} (t : tensor2 A) : nat := length (rows t).

(** Every row has the width the tensor declares. *)
Definition wf_tensor2 {A} (t : tensor2 A) : Prop :=
  Forall (fun r => length r = ncols t) (rows t).

(** ** Scalars

    The entries of embeddings and scores.  Only the operations the code
    applies to them are required: the sum and product of the inner product
    and the comparison by which scores are ranked. *)

Class Scalar (R : Type) : Type := {
  s_zero : R;
  s_add : R -> R -> R;
  s_mul : R -> R -> R;
  s_ltb : R -> R -> bool
}.

#[global] Instance Z_scalar : Scalar Z := {|
  s_zero := 0;
  s_add := Z.add;
  s_mul := Z.mul;
  s_ltb := Z.ltb
|}.

(** ** The value of a true division of two counts *)

Inductive pyfloat : Type :=
| Fin (q : Q)
| PosInf
| NaN.

Definition true_div (c n : nat) : pyfloat :=
  match n, c with
  | O, O => NaN
  | O, S _ => PosInf
  | S _, _ => Fin (Qmake (Z.of_nat c) (Pos.of_nat n))
  end.

(** IEEE comparison: [NaN] is not below anything, itself included. *)
Definition fle (x y : pyfloat) : Prop :=
  match x, y with
  | Fin a, Fin b => Qle a b
  | Fin _, PosInf => True
  | PosInf, PosInf => True
  | _, _ => False
  end.

Definition feq (x y : pyfloat) : Prop :=
  match x, y with
  | Fin a, Fin b => Qeq a b
  | PosInf, PosInf => True
  | _, _ => False
  end.

(** ** metrics/accuracy.py *)

Module Accuracy.

(** [top_all_labels == query_labels[:, None]]: an [m x k] tensor against an
    [n x 1] one.  The first dimensions must agree unless one of them is 1,
    in which case that operand is repeated; the second dimension of the
    right operand is 1 and always broadcasts. *)
Definition eq_broadcast (top_all_labels : tensor2 Z) (query_labels : list Z)
  : result (list (list bool)) :=
  let m := len2 top_all_labels in
  let n := length query_labels in
  if Nat.eqb m n then
    Ok (zip_with (fun row q => map (fun x => Z.eqb x q) row)
                 (rows top_all_labels) query_labels)
  else if Nat.eqb m 1 then
    Ok (map (fun q => map (fun x => Z.eqb x q)
                          (hd [] (rows top_all_labels))) query_labels)
  else if Nat.eqb n 1 then
    Ok (map (fun row => map (fun x => Z.eqb x (hd 0 query_labels)) row)
            (rows top_all_labels))
  else Err RuntimeError.

(** [torch.any(t, dim=1)] *)
Definition any_dim1 (t : list (list bool)) : list bool :=
  map (existsb (fun b => b)) t.

(** [torch.sum] of a boolean vector *)
Definition sum_bool (v : list bool) : nat :=
  length (filter (fun b => b = true) v).

Definition top_all_accuracy (query_labels : list Z) (top_all_labels : tensor2 Z)
  : result pyfloat :=
  eqs ← eq_broadcast top_all_labels query_labels;
  let corr := any_dim1 eqs in
  Ok (true_div (sum_bool corr) (length query_labels)).

Section TopK.
Context {R : Type} `{Scalar R}.

(** Insertion into a list of (column, score) pairs kept by descending
    score.  The new pair goes in front of the first pair whose score is
    not larger, so among equal scores the lower column comes first. *)
Fixpoint insert_desc (x : nat * R) (l : list (nat * R)) : list (nat * R) :=
  match l with
  | [] => [x]
  | y :: l' =>
      if s_ltb (snd x) (snd y) then y :: insert_desc x l' else x :: y :: l'
  end.

Definition sort_desc (row : list R) : list (nat * R) :=
  foldr insert_desc [] (zip (seq 0 (length row)) row).

(** [gallery_labels[idxs]] *)
Fixpoint gather (gallery_labels : list Z) (idxs : list nat) : result (list Z) :=
  match idxs with
  | [] => Ok []
  | i :: idxs' =>
      match gallery_labels !! i with
      | Some l => ls ← gather gallery_labels idxs'; Ok (l :: ls)
      | None => Err RuntimeError
      end
  end.

Fixpoint gather_rows (gallery_labels : list Z) (idxss : list (list nat))
  : result (list (list Z)) :=
  match idxss with
  | [] => Ok []
  | idxs :: idxss' =>
      r ← gather gallery_labels idxs;
      rs ← gather_rows gallery_labels idxss';
      Ok (r :: rs)
  end.

(** Modelled from the spec: [top_k] of [utils/inference], which
    [accuracy.py] imports and which is not among the sources.  For each
    query row it selects the [k] gallery columns with the highest score,
    ties broken by column order, and gathers their scores and labels; it
    fails with [InvalidK] when [k < 1] or [k] exceeds the number of
    gallery columns. *)
Definition top_k (scores : tensor2 R) (gallery_labels : list Z) (k : nat)
  : result (tensor2 R * tensor2 Z) :=
  if (k <? 1)%nat || (ncols scores <? k)%nat then Err InvalidK
  else
    let best := map (fun row => take k (sort_desc row)) (rows scores) in
    labels ← gather_rows gallery_labels (map (map fst) best);
    Ok (Tensor2 k (map (map snd) best), Tensor2 k labels).

Definition top_k_accuracy (scores : tensor2 R) (query_labels gallery_labels : list Z)
    (k : nat) : result pyfloat :=
  '(_, top_k_labels) ← top_k scores gallery_labels k;
  top_all_accuracy query_labels top_k_labels.

Definition accuracy (scores : tensor2 R) (query_labels gallery_labels : list Z)
  : result pyfloat :=
  top_k_accuracy scores query_labels gallery_labels 1.
End TopK.

End Accuracy.

(** ** utils/inference/score_matrix.py *)

Module ScoreMatrix.

Section GetScoreMatrix.
Context {R : Type} `{Scalar R} {Imgs : Type}.

(** [nn.Module]: the mode flag and the forward pass on a batch of images. *)
Record nn_Module : Type := NNModule {
  training : bool;
  forward : Imgs -> tensor2 R
}.

(** A [DataLoader] yields [(imgs, labels)] pairs. *)
Definition DataLoader : Type := list (Imgs * list Z).

(** What a run does to its collaborators, in order: a batch pulled from
    the gallery loader, a call of the aggregation function, a batch pulled
    from the query loader. *)
Inductive event : Type :=
| GalleryBatch (imgs : Imgs) (labels : list Z)
| AggGal (gal_embeddings : tensor2 R) (gal_labels : list Z)
| QueryBatch (imgs : Imgs) (labels : list Z).

(** A computation that logs events and may raise. *)
Definition traced (A : Type) : Type := (list event * result A)%type.

#[global] Instance traced_ret : MRet traced := fun _ a => ([], Ok a).
#[global] Instance traced_bind : MBind traced := fun _ _ f m =>
  match m with
  | (t, Ok a) => let '(t', r) := f a in (t ++ t', r)
  | (t, Err e) => (t, Err e)
  end.

Definition tell (e : event) : traced unit := ([e], Ok tt).
Definition raise {A} (e : error) : traced A := ([], Err e).
Definition lift {A} (r : result A) : traced A := ([], r).

(** Inner product of two vectors. *)
Definition dot (u v : list R) : R :=
  foldl (fun acc xy => s_add acc (s_mul (fst xy) (snd xy))) s_zero (zip u v).

(** [torch.matmul(a, b.T)] for [a] of shape [n, d] and [b] of shape
    [g, d']: the inner dimensions must agree. *)
Definition matmul_T (a b : tensor2 R) : result (tensor2 R) :=
  if Nat.eqb (ncols a) (ncols b) then
    Ok (Tensor2 (len2 b) (map (fun u => map (dot u) (rows b)) (rows a)))
  else Err RuntimeError.

(** [torch.cat] along dimension 0 of a Python list of 2-D tensors: the
    list must not be empty and the widths must agree. *)
Definition cat2 {A} (ts : list (tensor2 A)) : result (tensor2 A) :=
  match ts with
  | [] => Err RuntimeError
  | t :: ts' =>
      if forallb (fun u => Nat.eqb (ncols u) (ncols t)) ts' then
        Ok (Tensor2 (ncols t) (concat (map rows ts)))
      else Err RuntimeError
  end.

(** [torch.cat] of a Python list of 1-D tensors. *)
Definition cat1 {A} (ts : list (list A)) : result (list A) :=
  match ts with
  | [] => Err RuntimeError
  | _ :: _ => Ok (concat ts)
  end.

Section Run.
Variable model : nn_Module.
Variable get_embeddings_fn : option (nn_Module -> Imgs -> tensor2 R).

(** [model(imgs)] or [get_embeddings_fn(model, imgs)] *)
Definition embed (imgs : Imgs) : tensor2 R :=
  match get_embeddings_fn with
  | None => forward model imgs
  | Some f => f model imgs
  end.

(** The loop over [dl_gal]; the two accumulators are the Python lists
    [gal_embeddings] and [gal_labels]. *)
Fixpoint gallery_loop (dl_gal : DataLoader)
    (gal_embeddings : list (tensor2 R)) (gal_labels : list (list Z))
  : traced (list (tensor2 R) * list (list Z)) :=
  match dl_gal with
  | [] => mret (gal_embeddings, gal_labels)
  | (imgs, labels) :: dl_gal' =>
      tell (GalleryBatch imgs labels);;
      let out := embed imgs in
      if Nat.eqb (length labels) (len2 out) then
        gallery_loop dl_gal' (gal_embeddings ++ [out]) (gal_labels ++ [labels])
      else raise ShapeMismatch
  end.

(** The loop over [dl_quer]; the accumulators are the Python lists
    [scores] and [quer_labels]. *)
Fixpoint query_loop (gal_embeddings : tensor2 R) (dl_quer : DataLoader)
    (scores : list (tensor2 R)) (quer_labels : list (list Z))
  : traced (list (tensor2 R) * list (list Z)) :=
  match dl_quer with
  | [] => mret (scores, quer_labels)
  | (imgs, labels) :: dl_quer' =>
      tell (QueryBatch imgs labels);;
      let q_embs := embed imgs in
      s ← lift (matmul_T q_embs gal_embeddings);
      query_loop gal_embeddings dl_quer' (scores ++ [s]) (quer_labels ++ [labels])
  end.

Definition get_score_matrix (dl_gal dl_quer : DataLoader)
    (agg_gal_fn : option (tensor2 R -> list Z -> tensor2 R * list Z))
  : traced (tensor2 R * list Z * list Z) :=
  if training model then raise InvalidModelState
  else
    '(gal_embeddings, gal_labels) ← gallery_loop dl_gal [] [];
    gal_embeddings ← lift (cat2 gal_embeddings);
    gal_labels ← lift (cat1 gal_labels);
    '(gal_embeddings, gal_labels) ←
      match agg_gal_fn with
      | None => mret (gal_embeddings, gal_labels)
      | Some agg =>
          tell (AggGal gal_embeddings gal_labels);;
          mret (agg gal_embeddings gal_labels)
      end;
    '(scores, quer_labels) ← query_loop gal_embeddings dl_quer [] [];
    scores ← lift (cat2 scores);
    quer_labels ← lift (cat1 quer_labels);
    mret (scores, quer_labels, gal_labels).
End Run.
End GetScoreMatrix.

Arguments nn_Module R Imgs : clear implicits.
Arguments event R Imgs : clear implicits.
Arguments DataLoader Imgs : clear implicits.

End ScoreMatrix.

(** ** data/train_val_datasets.py *)

Module TrainVal.

Section Frames.
Context {Cell : Type} `{Countable Cell}.

(** A row of the table gives the cell under each column name; a
    [DataFrame] is the list of its rows. *)
Definition Row : Type := string -> Cell.
Definition DataFrame : Type := list Row.

(** [df[label_key]] *)
Definition column (df : DataFrame) (key : string) : list Cell :=
  map (fun r => r key) df.

(** [Series.unique()]: the distinct values, in order of first appearance. *)
Fixpoint unique (l : list Cell) : list Cell :=
  match l with
  | [] => []
  | x :: l' => x :: filter (fun y => y <> x) (unique l')
  end.

(** [{label: label_idx for label_idx, label in enumerate(labels)}] *)
Definition enumerate_dict (labels : list Cell) : gmap Cell nat :=
  foldl (fun d il => <[snd il := fst il]> d) ∅ (zip (seq 0 (length labels)) labels).

(** The LabelSet of a record collection. *)
Definition LabelSet (df : DataFrame) (label_key : string) : gset Cell :=
  list_to_set (column df label_key).

Section Splits.
(** The seeded pseudorandom shuffle, passed in explicitly. *)
Variable shuffle : forall A : Type, Z -> list A -> list A.

(** The slice a list of [n] elements gives fold [j] of [k]: contiguous,
    the first [n mod k] folds one element longer than the others. *)
Definition fold_slice {A} (l : list A) (k j : nat) : list A :=
  let q := (length l / k)%nat in
  let r := (length l mod k)%nat in
  take (q + (if (j <? r)%nat then 1 else 0))%nat (drop (j * q + min j r)%nat l).

(** Modelled from the spec: [label_based_k_fold_trainval_split] of
    [utils/data], which [train_val_datasets.py] imports and which is not
    among the sources.  It collects the distinct labels, shuffles them
    with the seed, slices them into [num_folds] contiguous near-equal
    folds; the records whose label is in fold [val_fold] are the
    validation records, all others the train records.  It fails with
    [InvalidFoldConfig] if [num_folds < 2], [val_fold] is out of range or
    there are fewer distinct labels than folds. *)
Definition label_based_k_fold_trainval_split (df : DataFrame)
    (num_folds val_fold seed : Z) (label_key : string)
  : result (DataFrame * DataFrame) :=
  let labels := unique (column df label_key) in
  if (num_folds <? 2) || (val_fold <? 0) || (num_folds <=? val_fold)
     || (Z.of_nat (length labels) <? num_folds)
  then Err InvalidFoldConfig
  else
    let val_labels :=
      fold_slice (shuffle Cell seed labels) (Z.to_nat num_folds) (Z.to_nat val_fold) in
    Ok (filter (fun r => r label_key ∉ val_labels) df,
        filter (fun r => r label_key ∈ val_labels) df).

(** Modelled from the spec: [split_gallery_query] of [utils/data], not
    among the sources.  It groups the records by label, shuffles each
    group with the seed, and takes the first [n_refs] records of each
    group as gallery and the rest as query; a label left without a
    gallery or without a query record fails with [DegenerateLabelSplit]. *)
Definition split_gallery_query (df : DataFrame) (n_refs seed : Z)
    (label_key : string) : result (DataFrame * DataFrame) :=
  let groups :=
    map (fun l => shuffle Row seed (filter (fun r => r label_key = l) df))
        (unique (column df label_key)) in
  if forallb (fun g => (0 <? n_refs) && (n_refs <? Z.of_nat (length g))) groups
  then Ok (concat (map (take (Z.to_nat n_refs)) groups),
           concat (map (drop (Z.to_nat n_refs)) groups))
  else Err DegenerateLabelSplit.
End Splits.

Section Datasets.
Context {Transform : Type}.

(** Modelled from the spec: [DataFrameDataset] of
    [data/data_frame_dataset.py], not among the sources: a view
    constructed from the records, the two column names, the
    label-to-integer map and an optional transform. *)
Record DataFrameDataset : Type := mkDataFrameDataset {
  ds_df : DataFrame;
  ds_label_key : string;
  ds_image_key : string;
  ds_label_to_int : gmap Cell nat;
  ds_transform : option Transform
}.

(** The collaborators of [get_train_val_datasets] that live outside the
    module: [pd.read_csv] and the two split functions of [utils/data]. *)
Variable read_csv : string -> DataFrame.
Variable kfold_split :
  DataFrame -> Z -> Z -> Z -> string -> result (DataFrame * DataFrame).
Variable gallery_query_split :
  DataFrame -> Z -> Z -> string -> result (DataFrame * DataFrame).

Definition get_train_val_datasets (data_csv_file label_key image_key : string)
    (num_folds val_fold k_fold_seed n_refs rand_ref_seed : Z)
    (tfm_train tfm_val : option Transform)
  : result (DataFrameDataset * DataFrameDataset * DataFrameDataset) :=
  let df := read_csv data_csv_file in
  '(df_train, df_val) ← kfold_split df num_folds val_fold k_fold_seed label_key;
  '(df_gal, df_quer) ← gallery_query_split df_val n_refs rand_ref_seed label_key;
  let ds_train :=
    mkDataFrameDataset df_train label_key image_key
      (enumerate_dict (unique (column df_train label_key))) tfm_train in
  let label_to_int_val := enumerate_dict (unique (column df_val label_key)) in
  let ds_gal :=
    mkDataFrameDataset df_gal label_key image_key label_to_int_val tfm_val in
  let ds_quer :=
    mkDataFrameDataset df_quer label_key image_key label_to_int_val tfm_val in
  Ok (ds_train, ds_gal, ds_quer).
End Datasets.
End Frames.

Arguments Row Cell : clear implicits.
Arguments DataFrame Cell : clear implicits.
Arguments DataFrameDataset Cell {_ _} Transform.

(** A concrete seeded shuffle for running the splits: the list rotated by
    the seed. *)
Definition rot_shuffle (A : Type) (seed : Z) (l : list A) : list A :=
  rotate (Z.to_nat (seed mod Z.of_nat (length l))) l.

(** A small table with the columns ["label"] and ["image"]. *)
Definition mk_row (label image : string) : Row string :=
  fun key => if String.eqb key "label" then label else image.

Definition demo_csv : DataFrame string :=
  [mk_row "A" "a0.png"; mk_row "B" "b0.png"; mk_row "A" "a1.png";
   mk_row "B" "b1.png"; mk_row "C" "c0.png"; mk_row "A" "a2.png";
   mk_row "C" "c1.png"].

End TrainVal.

Import Accuracy ScoreMatrix TrainVal.

(** ** Vocabulary of the statements *)

(** The number of queries whose label is among the candidates of its row. *)
Definition hits (query_labels : list Z) (candidates : list (list Z)) : nat :=
  length (filter (fun qr => fst qr ∈ snd qr) (zip query_labels candidates)).

(** Two rows hold the same labels, whatever their order and multiplicity. *)
Definition same_members (r r' : list Z) : Prop := forall x, x ∈ r <-> x ∈ r'.

(** The gallery labels of a score row, best score first. *)
Definition ranked_labels {R : Type} `{Scalar R} (gallery_labels : list Z)
    (row : list R) : list Z :=
  map (fun i => gallery_labels !!! i) (map fst (sort_desc row)).

Section ScoreMatrixVocabulary.
Context {R : Type} `{Scalar R} {Imgs : Type}.
Variable model : nn_Module R Imgs.
Variable get_embeddings_fn : option (nn_Module R Imgs -> Imgs -> tensor2 R).

(** The batch yields as many labels as the model yields embeddings. *)
Definition aligned (b : Imgs * list Z) : Prop :=
  length (snd b) = len2 (embed model get_embeddings_fn (fst b)).

(** The embeddings of a batch are as wide as the gallery embeddings. *)
Definition fits (gal_embeddings : tensor2 R) (b : Imgs * list Z) : Prop :=
  ncols (embed model get_embeddings_fn (fst b)) = ncols gal_embeddings.

(** The scores of one embedding against every gallery embedding. *)
Definition score_row (gal_embeddings : tensor2 R) (u : list R) : list R :=
  map (dot u) (rows gal_embeddings).

(** The product of a batch's embeddings with the transposed gallery
    embeddings. *)
Definition batch_scores (gal_embeddings : tensor2 R) (b : Imgs * list Z) : tensor2 R :=
  Tensor2 (len2 gal_embeddings)
    (map (score_row gal_embeddings) (rows (embed model get_embeddings_fn (fst b)))).

(** Every embedding of a loader with the label its batch gives it, in
    arrival order. *)
Definition labelled (dl : DataLoader Imgs) : list (list R * Z) :=
  concat (map (fun b => zip (rows (embed model get_embeddings_fn (fst b))) (snd b)) dl).

Definition gallery_events (dl : DataLoader Imgs) : list (event R Imgs) :=
  map (fun b => GalleryBatch (fst b) (snd b)) dl.

Definition query_events (dl : DataLoader Imgs) : list (event R Imgs) :=
  map (fun b => QueryBatch (fst b) (snd b)) dl.

Definition agg_events (agg_gal_fn : option (tensor2 R -> list Z -> tensor2 R * list Z))
    (gal_embeddings : tensor2 R) (gal_labels : list Z) : list (event R Imgs) :=
  match agg_gal_fn with
  | None => []
  | Some _ => [AggGal gal_embeddings gal_labels]
  end.

(** The gallery the queries are scored against. *)
Definition aggregated (agg_gal_fn : option (tensor2 R -> list Z -> tensor2 R * list Z))
    (gal_embeddings : tensor2 R) (gal_labels : list Z) : tensor2 R * list Z :=
  match agg_gal_fn with
  | None => (gal_embeddings, gal_labels)
  | Some agg => agg gal_embeddings gal_labels
  end.
End ScoreMatrixVocabulary.

(** An aggregation function that hands back as many embeddings as labels. *)
Definition agg_aligned {R : Type}
    (agg_gal_fn : option (tensor2 R -> list Z -> tensor2 R * list Z)) : Prop :=
  forall agg, agg_gal_fn = Some agg ->
    forall e l, len2 e = length l -> len2 (fst (agg e l)) = length (snd (agg e l)).

(** A model for running [get_score_matrix]: an image is a number [x], its
    embedding the vector [x; 1]. *)
Definition demo_model : nn_Module Z (list Z) :=
  NNModule false (fun imgs => Tensor2 2 (map (fun x => [x; 1]) imgs)).

Definition demo_gallery : DataLoader (list Z) := [([1; 2], [10; 11]); ([3], [12])].
Definition demo_queries : DataLoader (list Z) := [([1], [10]); ([5; 6], [12; 13])].

(** An embedding function that embeds the first image of a batch only, and
    loaders for it: gallery batches of one image, a query batch of two. *)
Definition first_image_only (model : nn_Module Z (list Z)) (imgs : list Z) : tensor2 Z :=
  forward model (take 1 imgs).

Definition single_gallery : DataLoader (list Z) := [([1], [10]); ([2], [11])].
Definition pair_queries : DataLoader (list Z) := [([5; 6], [12; 13])].

(** An aggregation that keeps the first embedding and every label. *)
Definition first_embedding_all_labels (e : tensor2 Z) (l : list Z) : tensor2 Z * list Z :=
  (Tensor2 (ncols e) (take 1 (rows e)), l).

(** An aggregation that keeps the first embedding and the first label. *)
Definition first_of_each (e : tensor2 Z) (l : list Z) : tensor2 Z * list Z :=
  (Tensor2 (ncols e) (take 1 (rows e)), take 1 l).

(** The map gives every label of the set a number below the size of the
    set, every such number to some label, and no number twice. *)
Definition dense_on {Cell : Type} `{Countable Cell}
    (d : gmap Cell nat) (labels : gset Cell) : Prop :=
  dom d = labels
  /\ (forall l i, d !! l = Some i -> (i < size labels)%nat)
  /\ (forall i, (i < size labels)%nat -> exists l, d !! l = Some i)
  /\ (forall l l' i, d !! l = Some i -> d !! l' = Some i -> l = l').

(** The number of candidate rows that hold the label [q]. *)
Definition rows_holding (q : Z) (candidates : list (list Z)) : nat :=
  length (filter (fun r => q ∈ r) candidates).

Section ScoreMatrixPhases.
Context {R : Type} `{Scalar R} {Imgs : Type}.
Variable model : nn_Module R Imgs.
Variable get_embeddings_fn : option (nn_Module R Imgs -> Imgs -> tensor2 R).

(** What [get_score_matrix] does once the gallery is composed: the loop
    over the query batches and the two concatenations. *)
Definition query_phase (gal_embeddings : tensor2 R) (gal_labels : list Z)
    (dl_quer : DataLoader Imgs) : traced (tensor2 R * list Z * list Z) :=
  '(scores, quer_labels) ← query_loop model get_embeddings_fn gal_embeddings dl_quer [] [];
  scores ← lift (cat2 scores);
  quer_labels ← lift (cat1 quer_labels);
  mret (scores, quer_labels, gal_labels).

(** All the embeddings a loader gives rise to, in arrival order. *)
Definition all_embeddings (dl : DataLoader Imgs) : list (list R) :=
  concat (map (fun b => rows (embed model get_embeddings_fn (fst b))) dl).
End ScoreMatrixPhases.

(** The demonstration queries in batches of two and one. *)
Definition demo_queries_regrouped : DataLoader (list Z) :=
  [([1; 5], [10; 12]); ([6], [13])].

(** An embedding function that gives the embeddings of a batch of several
    images a third entry. *)
Definition wider_for_batches (model : nn_Module Z (list Z)) (imgs : list Z) : tensor2 Z :=
  match imgs with
  | [_] => forward model imgs
  | _ => Tensor2 3 (map (fun x => [x; 1; 0]) imgs)
  end.

(** * Properties of [metrics/accuracy.py] *)

Section AccuracyFacts.

Lemma existsb_eq_hit (q : Z) (row : list Z) :
  existsb (fun b => b) (map (fun x => Z.eqb x q) row) = bool_decide (q ∈ row).
Proof.
  induction row as [|x row IH].
  - reflexivity.
  - cbn [map existsb]. rewrite IH.
    destruct (Z.eqb_spec x q) as [->|Hne]; cbn [orb].
    + symmetry. apply bool_decide_eq_true. left.
    + apply bool_decide_ext. rewrite elem_of_cons.
      split; [auto | intros [?|?]; [congruence | done]].
Qed.

Lemma sum_bool_cons (b : bool) (v : list bool) :
  sum_bool (b :: v) = ((if b then 1 else 0) + sum_bool v)%nat.
Proof.
  unfold sum_bool. destruct b.
  - by rewrite filter_cons_True.
  - by rewrite filter_cons_False.
Qed.

Lemma hits_cons (q : Z) (ql : list Z) (r : list Z) (rs : list (list Z)) :
  hits (q :: ql) (r :: rs) = ((if bool_decide (q ∈ r) then 1 else 0) + hits ql rs)%nat.
Proof.
  unfold hits. simpl. case_bool_decide.
  - by rewrite filter_cons_True.
  - by rewrite filter_cons_False.
Qed.

Lemma hits_le_length (ql : list Z) (rs : list (list Z)) :
  (hits ql rs <= length ql)%nat.
Proof.
  unfold hits. etrans; [apply length_filter|].
  rewrite length_zip. lia.
Qed.

(** With one candidate row per query, the comparison is row by row. *)
Lemma sum_any_zip (rs : list (list Z)) (ql : list Z) :
  length rs = length ql ->
  sum_bool (any_dim1 (zip_with (fun row q => map (fun x => Z.eqb x q) row) rs ql))
  = hits ql rs.
Proof.
  revert ql. induction rs as [|r rs IH]; intros [|q ql] Hlen; try done.
  simpl in Hlen. unfold any_dim1 in *. simpl.
  rewrite sum_bool_cons, hits_cons, existsb_eq_hit, IH by lia. done.
Qed.

Lemma top_all_accuracy_aligned (ql : list Z) (t : tensor2 Z) :
  len2 t = length ql ->
  top_all_accuracy ql t = Ok (true_div (hits ql (rows t)) (length ql)).
Proof.
  intros Hlen. unfold top_all_accuracy, eq_broadcast.
  rewrite Hlen, Nat.eqb_refl. simpl.
  rewrite sum_any_zip; done.
Qed.

Lemma true_div_pos (c n : nat) :
  (0 < n)%nat -> true_div c n = Fin (Qmake (Z.of_nat c) (Pos.of_nat n)).
Proof. destruct n; [lia|]. by destruct c. Qed.

Lemma fraction_bounds (c n : nat) :
  (0 < n)%nat -> (c <= n)%nat ->
  (0 <= Qmake (Z.of_nat c) (Pos.of_nat n) <= 1)%Q.
Proof.
  intros Hn Hc. unfold Qle. simpl. split; [lia|].
  rewrite Z.mul_1_r, Z.mul_1_l.
  assert (Z.pos (Pos.of_nat n) = Z.of_nat n) as ->; [|lia].
  destruct n; [lia|]. lia.
Qed.

(** The rows that decide a query are compared through membership only. *)
Lemma any_row_same_members (q : Z) (r r' : list Z) :
  same_members r r' ->
  existsb (fun b => b) (map (fun x => Z.eqb x q) r)
  = existsb (fun b => b) (map (fun x => Z.eqb x q) r').
Proof.
  intros Hrr. rewrite !existsb_eq_hit. apply bool_decide_ext, Hrr.
Qed.

Lemma Permutation_same_members (r r' : list Z) : r ≡ₚ r' -> same_members r r'.
Proof. intros Hp x. by rewrite Hp. Qed.

Lemma duplicate_same_members (x : Z) (r : list Z) :
  x ∈ r -> same_members r (x :: r).
Proof.
  intros Hx y. rewrite elem_of_cons. split; [auto | intros [->|?]; done].
Qed.

Lemma any_dim1_zip_same_members (rs rs' : list (list Z)) (ql : list Z) :
  Forall2 same_members rs rs' ->
  any_dim1 (zip_with (fun row q => map (fun x => Z.eqb x q) row) rs ql)
  = any_dim1 (zip_with (fun row q => map (fun x => Z.eqb x q) row) rs' ql).
Proof.
  intros HF. revert ql. induction HF as [|r r' rs rs' Hr _ IH]; intros ql.
  - done.
  - destruct ql as [|q ql]; [done|]. unfold any_dim1 in *. cbn [zip_with map].
    f_equal; [by apply any_row_same_members | apply IH].
Qed.

Lemma any_dim1_map_same_members (rs rs' : list (list Z)) (q : Z) :
  Forall2 same_members rs rs' ->
  any_dim1 (map (fun row => map (fun x => Z.eqb x q) row) rs)
  = any_dim1 (map (fun row => map (fun x => Z.eqb x q) row) rs').
Proof.
  induction 1 as [|r r' rs rs' Hr _ IH]; [done|].
  unfold any_dim1 in *. cbn [map].
  f_equal; [by apply any_row_same_members | apply IH].
Qed.

(** More candidates in every row can only add hits. *)
Lemma hits_mono (ql : list Z) (rs rs' : list (list Z)) :
  Forall2 (fun r r' => forall x, x ∈ r -> x ∈ r') rs rs' ->
  (hits ql rs <= hits ql rs')%nat.
Proof.
  intros HF. revert ql. induction HF as [|r r' rs rs' Hr _ IH]; intros ql.
  - done.
  - destruct ql as [|q ql]; [done|]. rewrite !hits_cons.
    specialize (IH ql). repeat case_bool_decide; try lia.
    exfalso. auto.
Qed.

Lemma hits_all (ql : list Z) (rs : list (list Z)) :
  length rs = length ql ->
  Forall2 (fun q r => q ∈ r) ql rs ->
  hits ql rs = length ql.
Proof.
  intros _ HF. induction HF as [|q r ql rs Hq _ IH]; [done|].
  rewrite hits_cons, IH. rewrite bool_decide_eq_true_2 by done. done.
Qed.

Section Ranking.
Context {R : Type} `{Scalar R}.

Lemma insert_desc_perm (x : nat * R) (l : list (nat * R)) :
  insert_desc x l ≡ₚ x :: l.
Proof.
  induction l as [|y l IH]; [done|]. cbn [insert_desc].
  destruct (s_ltb x.2 y.2); [|done].
  rewrite IH. apply Permutation_swap.
Qed.

Lemma foldr_insert_desc_perm (l : list (nat * R)) :
  foldr insert_desc [] l ≡ₚ l.
Proof.
  induction l as [|x l IH]; [done|]. cbn [foldr].
  by rewrite insert_desc_perm, IH.
Qed.

Lemma sort_desc_columns (row : list R) :
  map fst (sort_desc row) ≡ₚ seq 0 (length row).
Proof.
  unfold sort_desc. rewrite foldr_insert_desc_perm.
  rewrite fst_zip; [done|]. by rewrite length_seq.
Qed.

Lemma lookup_total_seq (gl : list Z) :
  map (fun i => gl !!! i) (seq 0 (length gl)) = gl.
Proof.
  apply list_eq. intros i. rewrite list_lookup_fmap.
  destruct (decide (i < length gl)%nat) as [Hi|Hi].
  - rewrite lookup_seq_lt by done. cbn.
    destruct (lookup_lt_is_Some_2 gl i Hi) as [x Hx].
    rewrite Hx. f_equal. by apply list_lookup_total_correct.
  - rewrite lookup_seq_ge by lia. cbn. symmetry. apply lookup_ge_None. lia.
Qed.

Lemma ranked_labels_perm (gl : list Z) (row : list R) :
  length row = length gl -> ranked_labels gl row ≡ₚ gl.
Proof.
  intros Hlen. unfold ranked_labels.
  rewrite sort_desc_columns, Hlen. by rewrite lookup_total_seq.
Qed.

Lemma gather_in_range (gl : list Z) (idxs : list nat) :
  Forall (fun i => (i < length gl)%nat) idxs ->
  gather gl idxs = Ok (map (fun i => gl !!! i) idxs).
Proof.
  induction 1 as [|i idxs Hi _ IH]; [done|]. cbn [gather map].
  destruct (lookup_lt_is_Some_2 gl i Hi) as [x Hx].
  rewrite Hx, IH. cbn. by rewrite (list_lookup_total_correct _ _ _ Hx).
Qed.

Lemma gather_rows_in_range (gl : list Z) (idxss : list (list nat)) :
  Forall (Forall (fun i => (i < length gl)%nat)) idxss ->
  gather_rows gl idxss = Ok (map (map (fun i => gl !!! i)) idxss).
Proof.
  induction 1 as [|idxs idxss Hi _ IH]; [done|]. cbn [gather_rows map].
  by rewrite gather_in_range, IH.
Qed.

Lemma sort_desc_in_range (row : list R) :
  Forall (fun i => (i < length row)%nat) (map fst (sort_desc row)).
Proof.
  rewrite sort_desc_columns. apply Forall_forall. intros i Hi.
  apply elem_of_seq in Hi. lia.
Qed.

(** On a well-formed score matrix and a [k] within range, [top_k]
    returns the first [k] ranked labels of every row. *)
Lemma top_k_labels (scores : tensor2 R) (gl : list Z) (k : nat) :
  wf_tensor2 scores -> ncols scores = length gl ->
  (1 <= k <= length gl)%nat ->
  exists top_scores,
    top_k scores gl k
    = Ok (top_scores,
          Tensor2 k (map (fun row => take k (ranked_labels gl row)) (rows scores))).
Proof.
  intros Hwf Hcols Hk. unfold top_k.
  destruct (Nat.ltb_spec k 1); [lia|].
  destruct (Nat.ltb_spec (ncols scores) k); [lia|]. cbn [orb].
  rewrite gather_rows_in_range.
  - eexists. cbn. do 3 f_equal. rewrite !map_map. apply map_ext.
    intros row. unfold ranked_labels. by rewrite !fmap_take.
  - rewrite map_map. apply Forall_fmap, Forall_forall. intros row Hrow. cbn.
    rewrite fmap_take. apply Forall_take.
    assert (length row = length gl) as <-.
    { rewrite <- Hcols. by apply (proj1 (Forall_forall _ _) Hwf). }
    apply sort_desc_in_range.
Qed.

Lemma top_k_accuracy_value (scores : tensor2 R) (ql gl : list Z) (k : nat) :
  wf_tensor2 scores -> ncols scores = length gl ->
  len2 scores = length ql ->
  (1 <= k <= length gl)%nat ->
  top_k_accuracy scores ql gl k
  = Ok (true_div
          (hits ql (map (fun row => take k (ranked_labels gl row)) (rows scores)))
          (length ql)).
Proof.
  intros Hwf Hcols Hrows Hk. unfold top_k_accuracy.
  destruct (top_k_labels scores gl k Hwf Hcols Hk) as [ts ->]. cbn.
  rewrite top_all_accuracy_aligned; [done|].
  unfold len2. cbn. by rewrite length_map.
Qed.
End Ranking.

End AccuracyFacts.

(** C5.  For a non-empty vector of query labels and one row of candidate
    labels per query, [top_all_accuracy] returns the number of queries
    whose label occurs among the candidates of their row, divided by the
    number of queries; the value lies between 0 and 1.  In particular, for
    query labels [A; B] and candidates [[A; C]; [C; D]] with [B] different
    from [C] and [D], the value is one half. *)
Theorem top_all_accuracy_is_hit_fraction :
  (forall (query_labels : list Z) (candidates : tensor2 Z),
      query_labels <> [] ->
      len2 candidates = length query_labels ->
      let q := Qmake (Z.of_nat (hits query_labels (rows candidates)))
                     (Pos.of_nat (length query_labels)) in
      top_all_accuracy query_labels candidates = Ok (Fin q)
      /\ (0 <= q <= 1)%Q)
  /\ (forall A B C D : Z,
        B <> C -> B <> D ->
        top_all_accuracy [A; B] (Tensor2 2 [[A; C]; [C; D]]) = Ok (Fin (1 # 2))).
Proof.
  split.
  - intros ql t Hne Hlen q.
    assert (0 < length ql)%nat as Hpos by (destruct ql; [done | simpl; lia]).
    split.
    + rewrite top_all_accuracy_aligned by done. by rewrite true_div_pos.
    + apply fraction_bounds; [done | apply hits_le_length].
  - intros A B C D HC HD.
    rewrite top_all_accuracy_aligned by done.
    cbn [rows length]. rewrite !hits_cons.
    rewrite bool_decide_eq_true_2 by left.
    rewrite bool_decide_eq_false_2; [done|].
    rewrite !elem_of_cons, elem_of_nil. intros [?|[?|[]]]; done.
Qed.

(** The scenario of C5 on the labels 0, 1, 2, 3, and a vector of three
    queries of which two are found. *)
Lemma top_all_accuracy_is_hit_fraction_witness :
  top_all_accuracy [0; 1] (Tensor2 2 [[0; 2]; [2; 3]]) = Ok (Fin (1 # 2))
  /\ top_all_accuracy [4; 5; 6] (Tensor2 2 [[4; 9]; [9; 9]; [9; 6]]) = Ok (Fin (2 # 3)).
Proof.
  split.
  - apply (proj2 top_all_accuracy_is_hit_fraction 0 1 2 3); lia.
  - apply (proj1 top_all_accuracy_is_hit_fraction [4; 5; 6]
             (Tensor2 2 [[4; 9]; [9; 9]; [9; 6]])); [discriminate | reflexivity].
Defined.

(** C10.  [top_all_accuracy] reads each row of candidates only through
    membership: two candidate tensors whose rows hold, row by row, the same
    labels (as after permuting a row, or repeating labels in it) give the
    same result for every vector of query labels. *)
Theorem top_all_accuracy_same_members :
  forall (query_labels : list Z) (t t' : tensor2 Z),
    Forall2 same_members (rows t) (rows t') ->
    top_all_accuracy query_labels t = top_all_accuracy query_labels t'.
Proof.
  intros ql t t' HF.
  assert (len2 t = len2 t') as Hlen by (unfold len2; by eapply Forall2_length).
  unfold top_all_accuracy, eq_broadcast. rewrite <- Hlen.
  destruct (Nat.eqb (len2 t) (length ql)).
  - cbn. by rewrite (any_dim1_zip_same_members _ _ _ HF).
  - destruct (Nat.eqb (len2 t) 1).
    + cbn. do 3 f_equal. unfold any_dim1. rewrite !map_map.
      apply map_ext. intros q. apply any_row_same_members.
      destruct HF; [done | done].
    + destruct (Nat.eqb (length ql) 1); [|done].
      cbn. by rewrite (any_dim1_map_same_members _ _ _ HF).
Qed.

(** Rows permuted and padded with repeated labels, at equal width 3. *)
Lemma top_all_accuracy_same_members_witness :
  top_all_accuracy [0; 1] (Tensor2 2 [[0; 2]; [2; 3]])
  = top_all_accuracy [0; 1] (Tensor2 3 [[2; 0; 0]; [3; 3; 2]]).
Proof.
  apply top_all_accuracy_same_members. cbn [rows].
  constructor; [|constructor; [|constructor]];
    intros x; rewrite !elem_of_cons, !elem_of_nil; tauto.
Defined.

(** C7, as stated, fails: on an empty query set [top_all_accuracy] does not
    raise; it returns the [NaN] of the division of zero by zero, and so do
    [top_k_accuracy] and [accuracy] on a score matrix without rows. *)
Lemma empty_queries_do_not_raise :
  top_all_accuracy [] (Tensor2 0 []) = Ok NaN
  /\ top_all_accuracy [] (Tensor2 0 []) <> Err EmptyInput
  /\ top_k_accuracy (Tensor2 2 ([] : list (list Z))) [] [5; 6] 2 = Ok NaN
  /\ accuracy (Tensor2 2 ([] : list (list Z))) [] [5; 6] = Ok NaN.
Proof. repeat split; try reflexivity. discriminate. Qed.

(** C7, amended.  With no query label, [top_all_accuracy] never fails with
    [EmptyInput]: it returns [NaN] when the candidate tensor has no row (or
    a single row, which broadcasts against the empty vector).  On a score
    matrix without rows and a [k] that [top_k] accepts, [top_k_accuracy] and
    [accuracy] return that [NaN]. *)
Theorem empty_queries_give_nan {R : Type} `{Scalar R} :
  (forall t : tensor2 Z,
      ((len2 t <= 1)%nat -> top_all_accuracy [] t = Ok NaN)
      /\ top_all_accuracy [] t <> Err EmptyInput)
  /\ (forall (scores : tensor2 R) (gallery_labels : list Z) (k : nat),
        rows scores = [] -> (1 <= k <= ncols scores)%nat ->
        top_k_accuracy scores [] gallery_labels k = Ok NaN)
  /\ (forall (scores : tensor2 R) (gallery_labels : list Z),
        rows scores = [] -> (1 <= ncols scores)%nat ->
        accuracy scores [] gallery_labels = Ok NaN).
Proof.
  assert (forall (scores : tensor2 R) (gl : list Z) (k : nat),
             rows scores = [] -> (1 <= k <= ncols scores)%nat ->
             top_k_accuracy scores [] gl k = Ok NaN) as Htopk.
  { intros scores gl k Hrows Hk. unfold top_k_accuracy, top_k.
    destruct (Nat.ltb_spec k 1); [lia|].
    destruct (Nat.ltb_spec (ncols scores) k); [lia|].
    rewrite Hrows. reflexivity. }
  split; [|split].
  - intros [c rs]. unfold top_all_accuracy, eq_broadcast, len2. cbn [rows length].
    split.
    + intros Hle. destruct rs as [|r [|r' rs]]; [done | done | simpl in Hle; lia].
    + destruct rs as [|r [|r' rs]]; done.
  - exact Htopk.
  - intros scores gl Hrows Hc. apply Htopk; [done | lia].
Qed.

Lemma empty_queries_give_nan_witness :
  top_all_accuracy [] (Tensor2 3 [[1; 2; 3]]) = Ok NaN
  /\ top_k_accuracy (Tensor2 2 ([] : list (list Z))) [] [5; 6] 2 = Ok NaN.
Proof.
  split.
  - apply (proj1 (proj1 empty_queries_give_nan (Tensor2 3 [[1; 2; 3]]))).
    cbn. lia.
  - apply (proj1 (proj2 empty_queries_give_nan)); [reflexivity | cbn; lia].
Defined.

(** C6, as stated, fails on the empty query set: every query label is in
    the gallery, vacuously, and the accuracy at [k = num_gallery] is [NaN],
    not 1. *)
Lemma top_k_accuracy_at_full_k_not_always_one :
  ~ (forall (scores : tensor2 Z) (query_labels gallery_labels : list Z),
        wf_tensor2 scores ->
        ncols scores = length gallery_labels ->
        len2 scores = length query_labels ->
        (forall q, q ∈ query_labels -> q ∈ gallery_labels) ->
        exists a,
          top_k_accuracy scores query_labels gallery_labels (length gallery_labels) = Ok a
          /\ feq a (Fin 1)).
Proof.
  intros Hclaim.
  destruct (Hclaim (Tensor2 1 []) [] [5]) as (a & Ha & Hone).
  - constructor.
  - reflexivity.
  - reflexivity.
  - intros q Hq. by apply elem_of_nil in Hq.
  - cbv in Ha. injection Ha as <-. exact Hone.
Qed.

(** C6, amended by the condition that there is at least one query.  For a
    score matrix of [num_gallery] columns with one row per query label,
    [top_k_accuracy] is non-decreasing in [k] over [1 <= k <= num_gallery],
    and at [k = num_gallery] it equals 1 whenever every query label occurs
    among the gallery labels. *)
Theorem top_k_accuracy_monotone {R : Type} `{Scalar R} :
  forall (scores : tensor2 R) (query_labels gallery_labels : list Z),
    wf_tensor2 scores ->
    ncols scores = length gallery_labels ->
    len2 scores = length query_labels ->
    query_labels <> [] ->
    (forall k k' : nat,
        (1 <= k)%nat -> (k <= k')%nat -> (k' <= length gallery_labels)%nat ->
        exists a a' : Q,
          top_k_accuracy scores query_labels gallery_labels k = Ok (Fin a)
          /\ top_k_accuracy scores query_labels gallery_labels k' = Ok (Fin a')
          /\ (a <= a')%Q)
    /\ ((forall q, q ∈ query_labels -> q ∈ gallery_labels) ->
        exists a : Q,
          top_k_accuracy scores query_labels gallery_labels (length gallery_labels)
          = Ok (Fin a)
          /\ (a == 1)%Q).
Proof.
  intros scores ql gl Hwf Hcols Hrows Hne.
  assert (0 < length ql)%nat as Hpos by (destruct ql; [done | simpl; lia]).
  split.
  - intros k k' H1 Hkk Hk'.
    rewrite !top_k_accuracy_value by (done || lia).
    rewrite !true_div_pos by done.
    do 2 eexists. split; [done|]. split; [done|].
    unfold Qle. cbn [Qnum Qden].
    apply Z.mul_le_mono_nonneg_r; [lia|]. apply inj_le.
    apply hits_mono, Forall2_fmap, Forall2_same_length_lookup_2; [done|].
    intros i row row' Hrow Hrow'. rewrite Hrow in Hrow'. injection Hrow' as <-.
    intros x. rewrite !elem_of_take. intros (j & Hj & Hlt). exists j. split; [done | lia].
  - intros Hall.
    assert (1 <= length gl)%nat as Hg.
    { destruct ql as [|q ql]; [done|].
      specialize (Hall q (list_elem_of_here _ _)).
      destruct gl; [by apply elem_of_nil in Hall | simpl; lia]. }
    rewrite top_k_accuracy_value by (done || lia).
    rewrite true_div_pos by done. eexists. split; [done|].
    rewrite hits_all.
    + unfold Qeq. cbn [Qnum Qden]. destruct (length ql); lia.
    + by rewrite length_map.
    + apply Forall2_fmap_r, Forall2_same_length_lookup_2; [done|].
      intros i q row Hq Hrow. cbn. rewrite take_ge.
      * rewrite ranked_labels_perm.
        -- apply Hall. by eapply list_elem_of_lookup_2.
        -- rewrite <- Hcols. eapply (proj1 (Forall_forall _ _) Hwf).
           by eapply list_elem_of_lookup_2.
      * unfold ranked_labels. rewrite !length_map.
        pose proof (Permutation_length (sort_desc_columns row)) as Hl.
        rewrite length_map, length_seq in Hl. rewrite Hl.
        rewrite <- Hcols. apply Nat.eq_le_incl.
        eapply (proj1 (Forall_forall _ _) Hwf). by eapply list_elem_of_lookup_2.
Qed.

(** Two queries against a gallery of three; the second query is found only
    among the best two columns. *)
Lemma top_k_accuracy_monotone_witness :
  (exists a a' : Q,
      top_k_accuracy (Tensor2 3 [[1; 5; 5]; [9; 2; 3]]) [11; 12] [10; 11; 12] 1
      = Ok (Fin a)
      /\ top_k_accuracy (Tensor2 3 [[1; 5; 5]; [9; 2; 3]]) [11; 12] [10; 11; 12] 2
         = Ok (Fin a')
      /\ (a <= a')%Q)
  /\ (exists a : Q,
        top_k_accuracy (Tensor2 3 [[1; 5; 5]; [9; 2; 3]]) [11; 12] [10; 11; 12] 3
        = Ok (Fin a)
        /\ (a == 1)%Q).
Proof.
  assert (wf_tensor2 (Tensor2 3 [[1; 5; 5]; [9; 2; 3]])) as Hwf
    by (repeat constructor).
  destruct (top_k_accuracy_monotone (Tensor2 3 [[1; 5; 5]; [9; 2; 3]])
              [11; 12] [10; 11; 12] Hwf eq_refl eq_refl) as [Hmono Hone].
  - discriminate.
  - split.
    + apply (Hmono 1%nat 2%nat); cbn; lia.
    + apply Hone. intros q. rewrite !elem_of_cons, !elem_of_nil. tauto.
Defined.

(** * Properties of [utils/inference/score_matrix.py] *)

Section ScoreMatrixFacts.
Context {R : Type} `{Scalar R} {Imgs : Type}.

Lemma bind_tell {A} (e : event R Imgs) (k : traced A) :
  (tell e;; k) = (e :: fst k, snd k).
Proof. by destruct k. Qed.

Lemma bind_lift_ok {A B} (a : A) (k : A -> traced (R := R) (Imgs := Imgs) B) :
  (x ← lift (Ok a); k x) = k a.
Proof. cbn. by destruct (k a). Qed.

Lemma bind_lift_err {A B} (e : error) (k : A -> traced (R := R) (Imgs := Imgs) B) :
  (x ← lift (Err e); k x) = ([], Err e).
Proof. done. Qed.

Lemma bind_ok {A B} (t : list (event R Imgs)) (a : A) (k : A -> traced B) :
  (x ← (t, Ok a); k x) = (t ++ fst (k a), snd (k a)).
Proof. cbn. by destruct (k a). Qed.

Lemma bind_err {A B} (t : list (event R Imgs)) (e : error) (k : A -> traced B) :
  (x ← (t, Err e); k x) = (t, Err e).
Proof. done. Qed.

(** Inversion of a bind that returns. *)
Lemma bind_inv {A B} (m : traced A) (k : A -> traced B)
    (t : list (event R Imgs)) (b : B) :
  m ≫= k = (t, Ok b) ->
  exists t1 a t2, m = (t1, Ok a) /\ k a = (t2, Ok b) /\ t = t1 ++ t2.
Proof.
  destruct m as [t1 [a|e]]; cbn; [|done].
  destruct (k a) as [t2 r] eqn:Hk. intros [= <- ->]. eauto 10.
Qed.

(** Inversion of a bind that raises. *)
Lemma bind_inv_err {A B} (m : traced A) (k : A -> traced B)
    (t : list (event R Imgs)) (e : error) :
  m ≫= k = (t, Err e) ->
  m = (t, Err e)
  \/ exists t1 a t2, m = (t1, Ok a) /\ k a = (t2, Err e) /\ t = t1 ++ t2.
Proof.
  destruct m as [t1 [a|e']]; cbn.
  - destruct (k a) as [t2 r] eqn:Hk. intros [= <- ->]. right. eauto 10.
  - intros [= <- <-]. by left.
Qed.

Lemma cat2_raises {A} (ts : list (tensor2 A)) (e : error) :
  cat2 ts = Err e -> e = RuntimeError.
Proof.
  unfold cat2. destruct ts as [|u ts]; [by intros [= <-]|].
  destruct (forallb _ ts); [done | by intros [= <-]].
Qed.

Lemma cat1_raises {A} (ts : list (list A)) (e : error) :
  cat1 ts = Err e -> e = RuntimeError.
Proof. destruct ts; [by intros [= <-] | done]. Qed.

Lemma cat1_returns {A} (ts : list (list A)) (l : list A) :
  cat1 ts = Ok l -> l = concat ts /\ ts <> [].
Proof. destruct ts; [done|]. by intros [= <-]. Qed.

Lemma cat2_returns {A} (ts : list (tensor2 A)) (u : tensor2 A) :
  cat2 ts = Ok u ->
  rows u = concat (map rows ts) /\ ts <> []
  /\ Forall (fun v => ncols v = ncols u) ts.
Proof.
  unfold cat2. destruct ts as [|v ts]; [done|].
  destruct (forallb _ ts) eqn:Hall; [|done]. intros [= <-]. cbn [rows ncols].
  split; [done|]. split; [done|]. constructor; [done|].
  apply Forall_forall. intros w Hw.
  apply Nat.eqb_eq. apply (proj1 (forallb_forall _ ts) Hall).
  by apply list_elem_of_In.
Qed.

Variable model : nn_Module R Imgs.
Variable get_embeddings_fn : option (nn_Module R Imgs -> Imgs -> tensor2 R).

Local Abbreviation embed' := (embed model get_embeddings_fn).
Local Abbreviation aligned' := (aligned model get_embeddings_fn).
Local Abbreviation fits' := (fits model get_embeddings_fn).
Local Abbreviation batch_scores' := (batch_scores model get_embeddings_fn).
Local Abbreviation labelled' := (labelled model get_embeddings_fn).
Local Abbreviation gallery_loop' := (gallery_loop model get_embeddings_fn).
Local Abbreviation query_loop' := (query_loop model get_embeddings_fn).
Local Abbreviation get_score_matrix' := (get_score_matrix model get_embeddings_fn).

(** *** The gallery loop *)

Lemma gallery_loop_aligned (dl : DataLoader Imgs) E L :
  Forall aligned' dl ->
  gallery_loop' dl E L
  = (gallery_events dl, Ok (E ++ map (fun b => embed' (fst b)) dl, L ++ map snd dl)).
Proof.
  intros HF. revert E L. induction HF as [|[imgs labels] dl Hb _ IH]; intros E L.
  - cbn. by rewrite !app_nil_r.
  - cbn [ScoreMatrix.gallery_loop].
    unfold aligned in Hb. cbn [fst snd] in Hb.
    rewrite Hb, Nat.eqb_refl, IH, bind_tell. cbn [fst snd gallery_events map].
    by rewrite <- !app_assoc.
Qed.

Lemma gallery_loop_mismatch (dl : DataLoader Imgs) E L :
  Exists (fun b => ~ aligned' b) dl ->
  exists t, gallery_loop' dl E L = (t, Err ShapeMismatch).
Proof.
  intros HE. revert E L. induction dl as [|[imgs labels] dl IH]; intros E L.
  - by apply Exists_nil in HE.
  - cbn [ScoreMatrix.gallery_loop].
    destruct (Nat.eqb_spec (length labels) (len2 (embed' imgs))) as [Heq|Hne].
    + apply Exists_cons in HE as [Hb|HE]; [by destruct Hb|].
      destruct (IH HE (E ++ [embed' imgs]) (L ++ [labels])) as [t ->].
      rewrite bind_tell. by eexists.
    + rewrite bind_tell. by eexists.
Qed.

Lemma aligned_dec (b : Imgs * list Z) : Decision (aligned' b).
Proof. unfold aligned, Decision. decide equality. Defined.

Lemma gallery_loop_returns (dl : DataLoader Imgs) E L t r :
  gallery_loop' dl E L = (t, Ok r) -> Forall aligned' dl.
Proof.
  intros Hrun.
  destruct (Forall_Exists_dec aligned' (fun b => ~ aligned' b) (fun b => aligned_dec b) dl)
    as [HF|HE]; [done|].
  destruct (gallery_loop_mismatch dl E L HE) as [t' Ht']. congruence.
Qed.

(** *** The query loop *)

Lemma matmul_T_fits (G : tensor2 R) (b : Imgs * list Z) :
  fits' G b -> matmul_T (embed' (fst b)) G = Ok (batch_scores' G b).
Proof.
  unfold fits, matmul_T. intros ->. by rewrite Nat.eqb_refl.
Qed.

Lemma query_loop_fits (G : tensor2 R) (dl : DataLoader Imgs) S QL :
  Forall (fits' G) dl ->
  query_loop' G dl S QL
  = (query_events dl, Ok (S ++ map (batch_scores' G) dl, QL ++ map snd dl)).
Proof.
  intros HF. revert S QL. induction HF as [|[imgs labels] dl Hb _ IH]; intros S QL.
  - cbn. by rewrite !app_nil_r.
  - cbn [ScoreMatrix.query_loop].
    pose proof (matmul_T_fits G _ Hb) as Hm. cbn [fst] in Hm.
    rewrite Hm, bind_lift_ok, IH, bind_tell.
    cbn [fst snd query_events map]. by rewrite <- !app_assoc.
Qed.

Lemma query_loop_misfit (G : tensor2 R) (dl : DataLoader Imgs) S QL :
  Exists (fun b => ~ fits' G b) dl ->
  exists t, query_loop' G dl S QL = (t, Err RuntimeError).
Proof.
  intros HE. revert S QL. induction dl as [|[imgs labels] dl IH]; intros S QL.
  - by apply Exists_nil in HE.
  - cbn [ScoreMatrix.query_loop]. unfold matmul_T.
    destruct (Nat.eqb_spec (ncols (embed' imgs)) (ncols G)) as [Heq|Hne].
    + apply Exists_cons in HE as [Hb|HE]; [by destruct Hb|].
      rewrite bind_lift_ok.
      destruct (IH HE (S ++ [Tensor2 (len2 G)
                  (map (fun u => map (dot u) (rows G)) (rows (embed' imgs)))])
                  (QL ++ [labels])) as [t ->].
      rewrite bind_tell. by eexists.
    + rewrite bind_lift_err, bind_tell. by eexists.
Qed.

Lemma fits_dec (G : tensor2 R) (b : Imgs * list Z) : Decision (fits' G b).
Proof. unfold fits, Decision. decide equality. Defined.

Lemma query_loop_returns (G : tensor2 R) (dl : DataLoader Imgs) S QL t r :
  query_loop' G dl S QL = (t, Ok r) -> Forall (fits' G) dl.
Proof.
  intros Hrun.
  destruct (Forall_Exists_dec (fits' G) (fun b => ~ fits' G b) (fun b => fits_dec G b) dl)
    as [HF|HE]; [done|].
  destruct (query_loop_misfit G dl S QL HE) as [t' Ht']. congruence.
Qed.

(** *** The whole run *)

(** What a run that returns has done. *)
Lemma get_score_matrix_returns dl_gal dl_quer agg_gal_fn t scores ql gl :
  get_score_matrix' dl_gal dl_quer agg_gal_fn = (t, Ok (scores, ql, gl)) ->
  training model = false
  /\ Forall aligned' dl_gal
  /\ exists E L G,
      cat2 (map (fun b => embed' (fst b)) dl_gal) = Ok E
      /\ cat1 (map snd dl_gal) = Ok L
      /\ aggregated agg_gal_fn E L = (G, gl)
      /\ Forall (fits' G) dl_quer
      /\ cat2 (map (batch_scores' G) dl_quer) = Ok scores
      /\ cat1 (map snd dl_quer) = Ok ql
      /\ t = gallery_events dl_gal ++ agg_events agg_gal_fn E L ++ query_events dl_quer.
Proof.
  unfold ScoreMatrix.get_score_matrix. intros Hrun.
  destruct (training model); [done|]. split; [done|].
  apply bind_inv in Hrun as (t1 & [Es Ls] & t1' & Hgal & Hrun & ->).
  pose proof (gallery_loop_returns _ _ _ _ _ Hgal) as HF. split; [done|].
  rewrite (gallery_loop_aligned dl_gal [] [] HF) in Hgal.
  injection Hgal as <- <- <-. cbn [app] in Hrun.
  apply bind_inv in Hrun as (t2 & E & t2' & HE & Hrun & ->).
  injection HE as <- HE.
  apply bind_inv in Hrun as (t3 & L & t3' & HL & Hrun & ->).
  injection HL as <- HL.
  apply bind_inv in Hrun as (t4 & [G gl'] & t4' & Hagg & Hrun & ->).
  apply bind_inv in Hrun as (t5 & [Ss QLs] & t5' & Hquer & Hrun & ->).
  pose proof (query_loop_returns _ _ _ _ _ _ Hquer) as HQ.
  rewrite (query_loop_fits G dl_quer [] [] HQ) in Hquer.
  injection Hquer as <- <- <-. cbn [app] in Hrun.
  apply bind_inv in Hrun as (t6 & S & t6' & HS & Hrun & ->).
  injection HS as <- HS.
  apply bind_inv in Hrun as (t7 & QL & t7' & HQL & Hrun & ->).
  injection HQL as <- HQL.
  injection Hrun as <- <- <- <-.
  exists E, L, G. rewrite !app_nil_r. cbn [app].
  repeat split; try done.
  - destruct agg_gal_fn as [agg|]; cbn in Hagg |- *.
    + by injection Hagg as _ ->.
    + by injection Hagg as _ -> ->.
  - f_equal. f_equal. destruct agg_gal_fn as [agg|]; cbn in Hagg |- *.
    + by injection Hagg as <- _.
    + by injection Hagg as <- _ _.
Qed.

(** How a run can fail: by the assertion on the mode before any event,
    by the assertion on a gallery batch, or inside torch. *)
Lemma get_score_matrix_raises dl_gal dl_quer agg_gal_fn t e :
  get_score_matrix' dl_gal dl_quer agg_gal_fn = (t, Err e) ->
  (e = InvalidModelState /\ training model = true /\ t = [])
  \/ (e = ShapeMismatch /\ training model = false
      /\ Exists (fun b => ~ aligned' b) dl_gal)
  \/ (e = RuntimeError /\ training model = false /\ Forall aligned' dl_gal).
Proof.
  unfold ScoreMatrix.get_score_matrix. intros Hrun.
  destruct (training model); [left; by injection Hrun as <- <-|]. right.
  destruct (Forall_Exists_dec aligned' (fun b => ~ aligned' b)
              (fun b => aligned_dec b) dl_gal) as [HF|HE]; cycle 1.
  { left. destruct (gallery_loop_mismatch dl_gal [] [] HE) as [t' Ht'].
    rewrite Ht' in Hrun. by injection Hrun as _ <-. }
  right. split; [|done].
  rewrite (gallery_loop_aligned dl_gal [] [] HF) in Hrun. cbn [app] in Hrun.
  apply bind_inv_err in Hrun as [Hrun|(t1 & [Es Ls] & t1' & Hgal & Hrun & ->)];
    [done|]. clear Hgal.
  apply bind_inv_err in Hrun as [Hrun|(t2 & E & t2' & _ & Hrun & ->)].
  { injection Hrun as _ Hrun. by apply cat2_raises in Hrun. }
  apply bind_inv_err in Hrun as [Hrun|(t3 & L & t3' & _ & Hrun & ->)].
  { injection Hrun as _ Hrun. by apply cat1_raises in Hrun. }
  apply bind_inv_err in Hrun as [Hrun|(t4 & [G gl'] & t4' & _ & Hrun & ->)].
  { by destruct agg_gal_fn. }
  apply bind_inv_err in Hrun as [Hrun|(t5 & [Ss QLs] & t5' & _ & Hrun & ->)].
  { destruct (Forall_Exists_dec (fits' G) (fun b => ~ fits' G b)
                (fun b => fits_dec G b) dl_quer) as [HQ|HQ].
    - by rewrite (query_loop_fits G dl_quer [] [] HQ) in Hrun.
    - destruct (query_loop_misfit G dl_quer [] [] HQ) as [t' Ht'].
      rewrite Ht' in Hrun. by injection Hrun as _ <-. }
  apply bind_inv_err in Hrun as [Hrun|(t6 & S & t6' & _ & Hrun & ->)].
  { injection Hrun as _ Hrun. by apply cat2_raises in Hrun. }
  apply bind_inv_err in Hrun as [Hrun|(t7 & QL & t7' & _ & Hrun & ->)].
  { injection Hrun as _ Hrun. by apply cat1_raises in Hrun. }
  done.
Qed.

(** A gallery batch with a wrong label count stops the run. *)
Lemma gallery_mismatch_raises dl_gal dl_quer agg_gal_fn :
  training model = false ->
  Exists (fun b => ~ aligned' b) dl_gal ->
  exists t, get_score_matrix' dl_gal dl_quer agg_gal_fn = (t, Err ShapeMismatch).
Proof.
  intros Hmode HE. unfold ScoreMatrix.get_score_matrix. rewrite Hmode.
  destruct (gallery_loop_mismatch dl_gal [] [] HE) as [t' ->]. by eexists.
Qed.

(** The query batches are never what raises [ShapeMismatch]. *)
Lemma query_batches_never_raise_mismatch dl_gal dl_quer agg_gal_fn t :
  Forall aligned' dl_gal ->
  get_score_matrix' dl_gal dl_quer agg_gal_fn <> (t, Err ShapeMismatch).
Proof.
  intros HF Hrun.
  apply get_score_matrix_raises in Hrun as [(? & _)|[(_ & _ & HE)|(? & _)]];
    try done.
  apply Exists_exists in HE as (b & Hb & Hnb).
  apply Hnb. by apply (proj1 (Forall_forall _ _) HF).
Qed.

(** *** Lengths of what the loops accumulate *)

Lemma length_concat_map {A B C} (f : A -> list B) (g : A -> list C) (l : list A) :
  Forall (fun a => length (f a) = length (g a)) l ->
  length (concat (map f l)) = length (concat (map g l)).
Proof.
  induction 1 as [|a l Ha _ IH]; [done|]. cbn. rewrite !length_app. lia.
Qed.

Lemma zip_concat_map {A B C} (f : A -> list B) (g : A -> list C) (l : list A) :
  Forall (fun a => length (f a) = length (g a)) l ->
  zip (concat (map f l)) (concat (map g l)) = concat (map (fun a => zip (f a) (g a)) l).
Proof.
  induction 1 as [|a l Ha _ IH]; [done|]. cbn.
  rewrite zip_with_app by done. by rewrite IH.
Qed.

End ScoreMatrixFacts.

(** C8.  A model in training mode makes [get_score_matrix] fail with
    [InvalidModelState] before any batch is pulled from a loader (the trace
    is empty); a model in inference mode never makes it fail with
    [InvalidModelState]. *)
Theorem get_score_matrix_checks_mode {R : Type} `{Scalar R} {Imgs : Type} :
  forall (model : nn_Module R Imgs)
         (get_embeddings_fn : option (nn_Module R Imgs -> Imgs -> tensor2 R))
         (dl_gal dl_quer : DataLoader Imgs)
         (agg_gal_fn : option (tensor2 R -> list Z -> tensor2 R * list Z)),
    if training model
    then get_score_matrix model get_embeddings_fn dl_gal dl_quer agg_gal_fn
         = ([], Err InvalidModelState)
    else forall t,
        get_score_matrix model get_embeddings_fn dl_gal dl_quer agg_gal_fn
        <> (t, Err InvalidModelState).
Proof.
  intros model fn dl_gal dl_quer agg.
  destruct (training model) eqn:Hmode.
  - unfold get_score_matrix. by rewrite Hmode.
  - intros t Hrun.
    apply get_score_matrix_raises in Hrun as [(_ & Ht & _)|[(? & _)|(? & _)]];
      congruence.
Qed.

(** C4.  A run of [get_score_matrix] that returns has, in this order,
    pulled every gallery batch, called the aggregation function (if there
    is one) once on the concatenated gallery embeddings and labels, and
    pulled every query batch; each query batch was multiplied with the
    transpose of the (aggregated) gallery embeddings, and the scores are
    the concatenation of these products in arrival order. *)
Theorem get_score_matrix_processing_order {R : Type} `{Scalar R} {Imgs : Type} :
  forall (model : nn_Module R Imgs)
         (get_embeddings_fn : option (nn_Module R Imgs -> Imgs -> tensor2 R))
         (dl_gal dl_quer : DataLoader Imgs)
         (agg_gal_fn : option (tensor2 R -> list Z -> tensor2 R * list Z))
         (t : list (event R Imgs)) (scores : tensor2 R) (quer_labels gal_labels : list Z),
    get_score_matrix model get_embeddings_fn dl_gal dl_quer agg_gal_fn
    = (t, Ok (scores, quer_labels, gal_labels)) ->
    exists (E : tensor2 R) (L : list Z) (G : tensor2 R),
      cat2 (map (fun b => embed model get_embeddings_fn (fst b)) dl_gal) = Ok E
      /\ cat1 (map snd dl_gal) = Ok L
      /\ aggregated agg_gal_fn E L = (G, gal_labels)
      /\ t = gallery_events dl_gal ++ agg_events agg_gal_fn E L ++ query_events dl_quer
      /\ Forall (fun b => matmul_T (embed model get_embeddings_fn (fst b)) G
                          = Ok (batch_scores model get_embeddings_fn G b)) dl_quer
      /\ cat2 (map (batch_scores model get_embeddings_fn G) dl_quer) = Ok scores
      /\ rows scores
         = concat (map (fun b => rows (batch_scores model get_embeddings_fn G b)) dl_quer).
Proof.
  intros model fn dl_gal dl_quer agg t scores ql gl Hrun.
  apply get_score_matrix_returns in Hrun
    as (_ & _ & E & L & G & HE & HL & Hagg & HQ & HS & _ & Ht).
  exists E, L, G. repeat split; try done.
  - eapply Forall_impl; [exact HQ|]. intros b Hb. by apply matmul_T_fits.
  - apply cat2_returns in HS as (-> & _). by rewrite map_map.
Qed.

Lemma get_score_matrix_processing_order_witness :
  exists (E : tensor2 Z) (L : list Z) (G : tensor2 Z),
    cat2 (map (fun b => embed demo_model None (fst b)) demo_gallery) = Ok E
    /\ cat1 (map snd demo_gallery) = Ok L
    /\ aggregated (Some first_of_each) E L = (G, [10])
    /\ [GalleryBatch [1; 2] [10; 11]; GalleryBatch [3] [12];
        AggGal (Tensor2 2 [[1; 1]; [2; 1]; [3; 1]]) [10; 11; 12];
        QueryBatch [1] [10]; QueryBatch [5; 6] [12; 13]]
       = gallery_events demo_gallery ++ agg_events (Some first_of_each) E L
         ++ query_events demo_queries
    /\ Forall (fun b => matmul_T (embed demo_model None (fst b)) G
                        = Ok (batch_scores demo_model None G b)) demo_queries
    /\ cat2 (map (batch_scores demo_model None G) demo_queries)
       = Ok (Tensor2 1 [[2]; [6]; [7]])
    /\ rows (Tensor2 1 [[2]; [6]; [7]])
       = concat (map (fun b => rows (batch_scores demo_model None G b)) demo_queries).
Proof.
  apply (get_score_matrix_processing_order demo_model None demo_gallery demo_queries
           (Some first_of_each) _ _ [10; 12; 13] [10]).
  reflexivity.
Defined.

(** C3: a query batch of two labels for which the embedding function
    yields one embedding is not detected; the run returns a score matrix of
    one row together with two query labels. *)
Theorem query_batch_mismatch_returns :
  Forall (aligned demo_model (Some first_image_only)) single_gallery
  /\ ~ aligned demo_model (Some first_image_only) ([5; 6], [12; 13])
  /\ get_score_matrix demo_model (Some first_image_only) single_gallery pair_queries None
     = ([GalleryBatch [1] [10]; GalleryBatch [2] [11]; QueryBatch [5; 6] [12; 13]],
        Ok (Tensor2 2 [[6; 11]], [12; 13], [10; 11])).
Proof.
  split; [|split].
  - repeat constructor.
  - by cbv.
  - reflexivity.
Qed.

(** C2, as stated, fails: with an aggregation function that returns one
    embedding and three labels the run returns a score matrix of one
    column with three gallery labels. *)
Lemma score_matrix_shape_not_always_aligned :
  ~ (forall (model : nn_Module Z (list Z))
            (get_embeddings_fn : option (nn_Module Z (list Z) -> list Z -> tensor2 Z))
            (dl_gal dl_quer : DataLoader (list Z))
            (agg_gal_fn : option (tensor2 Z -> list Z -> tensor2 Z * list Z))
            (t : list (event Z (list Z))) (scores : tensor2 Z)
            (quer_labels gal_labels : list Z),
        get_score_matrix model get_embeddings_fn dl_gal dl_quer agg_gal_fn
        = (t, Ok (scores, quer_labels, gal_labels)) ->
        len2 scores = length quer_labels /\ ncols scores = length gal_labels).
Proof.
  intros Hclaim.
  destruct (Hclaim demo_model None demo_gallery demo_queries
              (Some first_embedding_all_labels) _ _ _ _ eq_refl) as [_ Hcols].
  discriminate Hcols.
Qed.

(** C2, amended by two conditions: every query batch yields as many
    embeddings as labels, and the aggregation function (if there is one)
    returns as many embeddings as labels.  Then a run that returns gives a
    well-formed score matrix with one row per query label and one column
    per gallery label; paired in order, the rows and the query labels are
    the query embeddings scored against the gallery [G], each with the
    label of its batch; the columns follow the rows of [G], whose labels
    are the returned gallery labels. *)
Theorem get_score_matrix_shape {R : Type} `{Scalar R} {Imgs : Type} :
  forall (model : nn_Module R Imgs)
         (get_embeddings_fn : option (nn_Module R Imgs -> Imgs -> tensor2 R))
         (dl_gal dl_quer : DataLoader Imgs)
         (agg_gal_fn : option (tensor2 R -> list Z -> tensor2 R * list Z))
         (t : list (event R Imgs)) (scores : tensor2 R) (quer_labels gal_labels : list Z),
    get_score_matrix model get_embeddings_fn dl_gal dl_quer agg_gal_fn
    = (t, Ok (scores, quer_labels, gal_labels)) ->
    Forall (aligned model get_embeddings_fn) dl_quer ->
    agg_aligned agg_gal_fn ->
    len2 scores = length quer_labels
    /\ ncols scores = length gal_labels
    /\ wf_tensor2 scores
    /\ quer_labels = concat (map snd dl_quer)
    /\ exists (E : tensor2 R) (L : list Z) (G : tensor2 R),
        cat2 (map (fun b => embed model get_embeddings_fn (fst b)) dl_gal) = Ok E
        /\ cat1 (map snd dl_gal) = Ok L
        /\ aggregated agg_gal_fn E L = (G, gal_labels)
        /\ len2 G = length gal_labels
        /\ zip (rows E) L = labelled model get_embeddings_fn dl_gal
        /\ zip (rows scores) quer_labels
           = map (fun ul => (score_row G (fst ul), snd ul))
                 (labelled model get_embeddings_fn dl_quer).
Proof.
  intros model fn dl_gal dl_quer agg t scores ql gl Hrun HAq Hagg_al.
  apply get_score_matrix_returns in Hrun
    as (_ & HAg & E & L & G & HE & HL & Hagg & HQ & HS & HQL & _).
  apply cat2_returns in HS as (Hrows & Hne & Hcols).
  apply cat1_returns in HQL as (-> & _).
  apply cat2_returns in HE as HE'. destruct HE' as (HErows & _ & _).
  apply cat1_returns in HL as HL'. destruct HL' as (HLeq & _).
  rewrite map_map in Hrows, HErows.
  assert (len2 E = length L) as HEL.
  { unfold len2. rewrite HErows, HLeq. apply length_concat_map.
    eapply Forall_impl; [exact HAg|]. intros b Hb. by symmetry. }
  assert (len2 G = length gl) as HG.
  { destruct agg as [agg|]; cbn in Hagg.
    - specialize (Hagg_al agg eq_refl E L HEL). by rewrite Hagg in Hagg_al.
    - by injection Hagg as <- <-. }
  assert (Forall (fun b => length (rows (batch_scores model fn G b)) = length (snd b))
            dl_quer) as Hlen.
  { eapply Forall_impl; [exact HAq|]. intros b Hb. cbn. rewrite length_map. by symmetry. }
  assert (ncols scores = len2 G) as Hc.
  { destruct dl_quer as [|b dl_quer]; [done|].
    apply Forall_cons in Hcols as [Hb _]. by rewrite <- Hb. }
  split; [|split; [|split; [|split]]].
  - unfold len2. rewrite Hrows. by apply length_concat_map.
  - by rewrite Hc.
  - unfold wf_tensor2. rewrite Hrows, Hc. apply Forall_concat, Forall_fmap.
    apply Forall_forall. intros b _. cbn. apply Forall_fmap, Forall_forall.
    intros u _. cbn. unfold score_row. by rewrite length_map.
  - done.
  - exists E, L, G. repeat split; try done.
    + rewrite HErows, HLeq. unfold labelled. apply zip_concat_map.
      eapply Forall_impl; [exact HAg|]. intros b Hb. by symmetry.
    + rewrite Hrows. rewrite zip_concat_map by done. unfold labelled.
      clear. induction dl_quer as [|b dl IH]; [done|]. cbn [map concat].
      rewrite IH. change (concat (?x :: ?l)) with (x ++ concat l).
      rewrite List.map_app. f_equal. cbn [batch_scores rows].
      generalize (rows (embed model fn b.1)) (snd b). clear.
      induction l as [|u l IH]; intros [|x k]; cbn; [done..|]. by rewrite IH.
Qed.

Lemma get_score_matrix_shape_witness :
  len2 (Tensor2 1 [[2]; [6]; [7]]) = length [10; 12; 13]
  /\ ncols (Tensor2 1 [[2]; [6]; [7]]) = length [10]
  /\ wf_tensor2 (Tensor2 1 [[2]; [6]; [7]])
  /\ [10; 12; 13] = concat (map snd demo_queries)
  /\ exists (E : tensor2 Z) (L : list Z) (G : tensor2 Z),
      cat2 (map (fun b => embed demo_model None (fst b)) demo_gallery) = Ok E
      /\ cat1 (map snd demo_gallery) = Ok L
      /\ aggregated (Some first_of_each) E L = (G, [10])
      /\ len2 G = length [10]
      /\ zip (rows E) L = labelled demo_model None demo_gallery
      /\ zip (rows (Tensor2 1 [[2]; [6]; [7]])) [10; 12; 13]
         = map (fun ul => (score_row G (fst ul), snd ul))
               (labelled demo_model None demo_queries).
Proof.
  apply (get_score_matrix_shape demo_model None demo_gallery demo_queries
           (Some first_of_each)
           [GalleryBatch [1; 2] [10; 11]; GalleryBatch [3] [12];
            AggGal (Tensor2 2 [[1; 1]; [2; 1]; [3; 1]]) [10; 11; 12];
            QueryBatch [1] [10]; QueryBatch [5; 6] [12; 13]]).
  - reflexivity.
  - repeat constructor.
  - intros agg [= <-] e l Hel. unfold first_of_each, len2. cbn [fst snd rows].
    rewrite !length_take. unfold len2 in Hel. lia.
Defined.

(** * Properties of [data/train_val_datasets.py] *)

Section FrameFacts.
Context {Cell : Type} `{Countable Cell}.

Lemma elem_of_unique (l : list Cell) (x : Cell) : x ∈ unique l <-> x ∈ l.
Proof.
  induction l as [|y l IH]; [done|]. cbn [unique].
  rewrite !elem_of_cons, list_elem_of_filter, IH.
  destruct (decide (x = y)); tauto.
Qed.

Lemma NoDup_unique (l : list Cell) : NoDup (unique l).
Proof.
  induction l as [|y l IH]; [constructor|]. cbn [unique]. constructor.
  - rewrite list_elem_of_filter. tauto.
  - by apply NoDup_filter.
Qed.

Lemma LabelSet_unique (df : DataFrame Cell) (key : string) :
  list_to_set (C := gset Cell) (unique (column df key)) = LabelSet df key.
Proof.
  apply set_eq. intros x. unfold LabelSet.
  by rewrite !elem_of_list_to_set, elem_of_unique.
Qed.

Lemma size_LabelSet (df : DataFrame Cell) (key : string) :
  size (LabelSet df key) = length (unique (column df key)).
Proof.
  rewrite <- LabelSet_unique. apply size_list_to_set, NoDup_unique.
Qed.

Lemma elem_of_LabelSet_filter (P : Row Cell -> Prop) `{!forall r, Decision (P r)}
    (df : DataFrame Cell) (key : string) (x : Cell) :
  x ∈ LabelSet (filter P df) key <-> exists r, r ∈ df /\ P r /\ r key = x.
Proof.
  unfold LabelSet, column. rewrite elem_of_list_to_set, list_elem_of_fmap.
  split.
  - intros (r & -> & Hr). apply list_elem_of_filter in Hr as [HP Hr]. eauto.
  - intros (r & Hr & HP & <-). exists r. split; [done|].
    by apply list_elem_of_filter.
Qed.

Lemma elem_of_LabelSet (df : DataFrame Cell) (key : string) (x : Cell) :
  x ∈ LabelSet df key <-> exists r, r ∈ df /\ r key = x.
Proof.
  unfold LabelSet, column. rewrite elem_of_list_to_set, list_elem_of_fmap.
  split; intros (r & ? & ?); eauto.
Qed.

(** The dictionary built by the comprehension maps a label to its
    position among the distinct labels. *)
Lemma foldl_insert_lookup (ls : list Cell) (s : nat) (d0 : gmap Cell nat)
    (l : Cell) (i : nat) :
  NoDup ls ->
  foldl (fun d il => <[snd il := fst il]> d) d0 (zip (seq s (length ls)) ls) !! l
  = Some i
  <-> (exists j, ls !! j = Some l /\ i = (s + j)%nat)
      \/ ((l ∉ ls) /\ d0 !! l = Some i).
Proof.
  intros Hnd. revert s d0.
  induction Hnd as [|x ls Hx Hnd IH]; intros s d0.
  - cbn. split; [intros ?; right; split; [apply not_elem_of_nil | done]|].
    intros [(j & Hj & _)|[_ ?]]; done.
  - cbn [length seq zip zip_with foldl fst snd]. rewrite IH. split.
    + intros [(j & Hj & ->)|[Hl Hd]].
      * left. exists (S j). split; [done | lia].
      * destruct (decide (l = x)) as [->|Hne].
        -- rewrite lookup_insert_eq in Hd. injection Hd as <-.
           left. exists 0%nat. split; [done | lia].
        -- rewrite lookup_insert_ne in Hd by done. right. split; [|done].
           rewrite elem_of_cons. tauto.
    + intros [(j & Hj & ->)|[Hl Hd]].
      * destruct j as [|j]; cbn in Hj.
        -- injection Hj as ->. right. split; [done|].
           rewrite lookup_insert_eq. f_equal. lia.
        -- left. exists j. split; [done | lia].
      * right. rewrite not_elem_of_cons in Hl. destruct Hl as [Hne Hl].
        split; [done|]. by rewrite lookup_insert_ne.
Qed.

Lemma enumerate_dict_lookup (ls : list Cell) (l : Cell) (i : nat) :
  NoDup ls -> enumerate_dict ls !! l = Some i <-> ls !! i = Some l.
Proof.
  intros Hnd. unfold enumerate_dict. rewrite foldl_insert_lookup by done.
  split.
  - intros [(j & Hj & ->)|[_ Hd]]; [done|]. by rewrite lookup_empty in Hd.
  - intros Hi. left. by exists i.
Qed.

Lemma enumerate_dict_dense (df : DataFrame Cell) (key : string) :
  dense_on (enumerate_dict (unique (column df key))) (LabelSet df key).
Proof.
  pose proof (NoDup_unique (column df key)) as Hnd.
  unfold dense_on. rewrite size_LabelSet.
  split; [|split; [|split]].
  - apply set_eq. intros l. rewrite elem_of_dom, <- LabelSet_unique.
    rewrite elem_of_list_to_set, list_elem_of_lookup. unfold is_Some.
    split; intros [i Hi]; exists i; by apply enumerate_dict_lookup.
  - intros l i Hl. apply enumerate_dict_lookup in Hl; [|done].
    by eapply lookup_lt_Some.
  - intros i Hi. destruct (lookup_lt_is_Some_2 _ _ Hi) as [l Hl].
    exists l. by apply enumerate_dict_lookup.
  - intros l l' i Hl Hl'. apply enumerate_dict_lookup in Hl, Hl'; [|done..].
    congruence.
Qed.

End FrameFacts.

(** Whatever the shuffle and the folds, a split that is returned divides
    the labels. *)
Lemma kfold_split_label_sets {Cell : Type} `{Countable Cell}
    (shuffle : forall A : Type, Z -> list A -> list A)
    (df df_train df_val : DataFrame Cell) (num_folds val_fold seed : Z)
    (label_key : string) :
  label_based_k_fold_trainval_split shuffle df num_folds val_fold seed label_key
  = Ok (df_train, df_val) ->
  LabelSet df_train label_key ∩ LabelSet df_val label_key = ∅
  /\ LabelSet df_train label_key ∪ LabelSet df_val label_key = LabelSet df label_key.
Proof.
  unfold label_based_k_fold_trainval_split.
  destruct (_ || _); [done|]. intros [= <- <-]. split.
  - apply set_eq. intros x.
    rewrite elem_of_intersection, !elem_of_LabelSet_filter, elem_of_empty.
    split; [|done]. intros [(r & _ & Hr & <-) (r' & _ & Hr' & Heq)].
    rewrite Heq in Hr'. done.
  - apply set_eq. intros x.
    rewrite elem_of_union, !elem_of_LabelSet_filter, elem_of_LabelSet.
    split.
    + intros [(r & Hr & _ & <-)|(r & Hr & _ & <-)]; eauto.
    + intros (r & Hr & <-).
      match goal with
      | |- context [fold_slice ?l ?k ?j] =>
          destruct (decide (r label_key ∈ fold_slice l k j)); [right | left]; eauto
      end.
Qed.

(** C1.  For [num_folds >= 2], [0 <= val_fold < num_folds] and any seed
    and shuffle, [label_based_k_fold_trainval_split] returns a split as soon
    as the records hold at least [num_folds] distinct labels, and in every
    split it returns no label occurs both in the train and in the validation
    records, while together the two hold exactly the labels of the input. *)
Theorem label_based_k_fold_trainval_split_disjoint {Cell : Type} `{Countable Cell} :
  forall (shuffle : forall A : Type, Z -> list A -> list A)
         (df : DataFrame Cell) (num_folds val_fold seed : Z) (label_key : string),
    2 <= num_folds ->
    0 <= val_fold < num_folds ->
    (num_folds <= Z.of_nat (size (LabelSet df label_key)) ->
     exists df_train df_val,
       label_based_k_fold_trainval_split shuffle df num_folds val_fold seed label_key
       = Ok (df_train, df_val))
    /\ (forall df_train df_val,
          label_based_k_fold_trainval_split shuffle df num_folds val_fold seed label_key
          = Ok (df_train, df_val) ->
          LabelSet df_train label_key ∩ LabelSet df_val label_key = ∅
          /\ LabelSet df_train label_key ∪ LabelSet df_val label_key
             = LabelSet df label_key).
Proof.
  intros shuffle df num_folds val_fold seed label_key Hfolds Hval.
  unfold label_based_k_fold_trainval_split.
  destruct (Z.ltb_spec num_folds 2); [lia|].
  destruct (Z.ltb_spec val_fold 0); [lia|].
  destruct (Z.leb_spec num_folds val_fold); [lia|]. cbn [orb].
  rewrite size_LabelSet. split.
  - intros Hlabels.
    destruct (Z.ltb_spec (Z.of_nat (length (unique (column df label_key)))) num_folds);
      [lia|]. eauto.
  - intros df_train df_val Hsplit.
    apply (kfold_split_label_sets shuffle df df_train df_val num_folds val_fold seed).
    unfold label_based_k_fold_trainval_split.
    destruct (Z.ltb_spec num_folds 2); [lia|].
    destruct (Z.ltb_spec val_fold 0); [lia|].
    destruct (Z.leb_spec num_folds val_fold); [lia|]. exact Hsplit.
Qed.

(** The table of the demonstration, two folds, fold 0 for validation. *)
Lemma label_based_k_fold_trainval_split_disjoint_witness :
  (exists df_train df_val,
      label_based_k_fold_trainval_split rot_shuffle demo_csv 2 0 1 "label"
      = Ok (df_train, df_val))
  /\ (forall df_train df_val,
        label_based_k_fold_trainval_split rot_shuffle demo_csv 2 0 1 "label"
        = Ok (df_train, df_val) ->
        LabelSet df_train "label" ∩ LabelSet df_val "label" = ∅
        /\ LabelSet df_train "label" ∪ LabelSet df_val "label"
           = LabelSet demo_csv "label").
Proof.
  destruct (label_based_k_fold_trainval_split_disjoint rot_shuffle demo_csv 2 0 1 "label")
    as [Hret Hsplit]; [lia | lia |].
  split; [apply Hret; vm_compute; discriminate | exact Hsplit].
Defined.

(** With the split modelled above, no raw label is a key of both the train
    map and the validation map of one run. *)
Lemma train_and_validation_maps_share_no_label {Cell : Type} `{Countable Cell}
    {Transform : Type}
    (shuffle : forall A : Type, Z -> list A -> list A)
    (read_csv : string -> DataFrame Cell)
    (gallery_query_split :
       DataFrame Cell -> Z -> Z -> string -> result (DataFrame Cell * DataFrame Cell))
    (data_csv_file label_key image_key : string)
    (num_folds val_fold k_fold_seed n_refs rand_ref_seed : Z)
    (tfm_train tfm_val : option Transform)
    (ds_train ds_gal ds_quer : DataFrameDataset Cell Transform) :
  get_train_val_datasets read_csv (label_based_k_fold_trainval_split shuffle)
    gallery_query_split data_csv_file label_key image_key num_folds val_fold
    k_fold_seed n_refs rand_ref_seed tfm_train tfm_val
  = Ok (ds_train, ds_gal, ds_quer) ->
  dom (ds_label_to_int ds_train) ∩ dom (ds_label_to_int ds_gal) = ∅.
Proof.
  unfold get_train_val_datasets.
  destruct (label_based_k_fold_trainval_split _ _ _ _ _ _)
    as [[df_train df_val]|e] eqn:Hsplit; [|done]. cbn.
  destruct (gallery_query_split _ _ _ _) as [[df_gal df_quer]|e]; [|done]. cbn.
  intros [= <- <- <-]. cbn [ds_label_to_int].
  destruct (enumerate_dict_dense df_train label_key) as [-> _].
  destruct (enumerate_dict_dense df_val label_key) as [-> _].
  by destruct (kfold_split_label_sets _ _ _ _ _ _ _ _ Hsplit).
Qed.

(** C9.  In every result of [get_train_val_datasets] the gallery and the
    query dataset carry one and the same label-to-integer map, the one
    built from the validation records of the split; it gives the distinct
    validation labels the integers from 0 up to their number, one each.
    The train dataset carries a map built in the same way from the train
    records alone.  The integer of a label depends on the records the map
    is built from: the same label is numbered 1 after another label and 0
    before it. *)
Theorem get_train_val_datasets_label_maps {Cell : Type} `{Countable Cell}
    {Transform : Type} :
  (forall (read_csv : string -> DataFrame Cell)
          (kfold_split :
             DataFrame Cell -> Z -> Z -> Z -> string
             -> result (DataFrame Cell * DataFrame Cell))
          (gallery_query_split :
             DataFrame Cell -> Z -> Z -> string
             -> result (DataFrame Cell * DataFrame Cell))
          (data_csv_file label_key image_key : string)
          (num_folds val_fold k_fold_seed n_refs rand_ref_seed : Z)
          (tfm_train tfm_val : option Transform)
          (ds_train ds_gal ds_quer : DataFrameDataset Cell Transform),
      get_train_val_datasets read_csv kfold_split gallery_query_split
        data_csv_file label_key image_key num_folds val_fold k_fold_seed
        n_refs rand_ref_seed tfm_train tfm_val
      = Ok (ds_train, ds_gal, ds_quer) ->
      exists df_train df_val : DataFrame Cell,
        kfold_split (read_csv data_csv_file) num_folds val_fold k_fold_seed label_key
        = Ok (df_train, df_val)
        /\ ds_label_to_int ds_gal = ds_label_to_int ds_quer
        /\ ds_label_to_int ds_gal = enumerate_dict (unique (column df_val label_key))
        /\ dense_on (ds_label_to_int ds_gal) (LabelSet df_val label_key)
        /\ ds_label_to_int ds_train = enumerate_dict (unique (column df_train label_key))
        /\ dense_on (ds_label_to_int ds_train) (LabelSet df_train label_key))
  /\ (forall a b : Cell,
        a <> b ->
        enumerate_dict (unique [a; b]) !! b = Some 1%nat
        /\ enumerate_dict (unique [b; a]) !! b = Some 0%nat).
Proof.
  split.
  - intros read_csv kfold_split gallery_query_split file label_key image_key
      num_folds val_fold k_fold_seed n_refs rand_ref_seed tfm_train tfm_val
      ds_train ds_gal ds_quer.
    unfold get_train_val_datasets.
    destruct (kfold_split _ _ _ _ _) as [[df_train df_val]|e]; [|done]. cbn.
    destruct (gallery_query_split _ _ _ _) as [[df_gal df_quer]|e]; [|done]. cbn.
    intros [= <- <- <-]. exists df_train, df_val. cbn [ds_label_to_int].
    repeat split; try done; apply enumerate_dict_dense.
  - intros a b Hab. split.
    + apply enumerate_dict_lookup; [apply NoDup_unique|]. cbn [unique].
      rewrite filter_nil, filter_cons_True by congruence. done.
    + apply enumerate_dict_lookup; [apply NoDup_unique|]. done.
Qed.

Lemma get_train_val_datasets_label_maps_witness :
  exists ds_train ds_gal ds_quer : DataFrameDataset string unit,
    get_train_val_datasets (fun _ => demo_csv)
      (label_based_k_fold_trainval_split rot_shuffle) (split_gallery_query rot_shuffle)
      "data.csv" "label" "image" 2 0 0 1 0 None None
    = Ok (ds_train, ds_gal, ds_quer)
    /\ ds_label_to_int ds_gal = ds_label_to_int ds_quer
    /\ dense_on (ds_label_to_int ds_gal) {["A"; "B"]}
    /\ dense_on (ds_label_to_int ds_train) {["C"]}.
Proof.
  destruct (get_train_val_datasets (Transform := unit) (fun _ => demo_csv)
              (label_based_k_fold_trainval_split rot_shuffle)
              (split_gallery_query rot_shuffle)
              "data.csv" "label" "image" 2 0 0 1 0 None None)
    as [[[ds_train ds_gal] ds_quer]|e] eqn:Hrun; [|by vm_compute in Hrun].
  exists ds_train, ds_gal, ds_quer. split; [done|].
  destruct (proj1 get_train_val_datasets_label_maps
              _ _ _ _ _ _ _ _ _ _ _ _ _ _ _ _ Hrun)
    as (df_train & df_val & Hsplit & Hsame & _ & Hval & _ & Htrain).
  vm_compute in Hsplit. injection Hsplit as <- <-.
  split; [done|]. split.
  - replace ({["A"; "B"]} : gset string)
      with (LabelSet [mk_row "A" "a0.png"; mk_row "B" "b0.png"; mk_row "A" "a1.png";
                      mk_row "B" "b1.png"; mk_row "A" "a2.png"] "label"); [exact Hval|].
    apply set_eq. intros x. unfold LabelSet. cbn. set_solver.
  - replace ({["C"]} : gset string)
      with (LabelSet [mk_row "C" "c0.png"; mk_row "C" "c1.png"] "label"); [exact Htrain|].
    apply set_eq. intros x. unfold LabelSet. cbn. set_solver.
Defined.

(** * Further properties of [top_all_accuracy] *)

Section TopAllFacts.

Lemma sum_any_map (q : Z) (rs : list (list Z)) :
  sum_bool (any_dim1 (map (fun row => map (fun x => Z.eqb x q) row) rs))
  = rows_holding q rs.
Proof.
  unfold rows_holding, any_dim1. induction rs as [|r rs IH]; [done|].
  cbn [map]. rewrite sum_bool_cons, existsb_eq_hit, IH.
  case_bool_decide.
  - by rewrite filter_cons_True.
  - by rewrite filter_cons_False.
Qed.





End TopAllFacts.

(** X1.  For a single query label the comparison broadcasts over all the
    candidate rows: [top_all_accuracy] returns the number of rows that hold
    the label, divided by one, which is above 1 as soon as two rows hold it. *)
Theorem top_all_accuracy_single_query :
  forall (q : Z) (candidates : tensor2 Z),
    top_all_accuracy [q] candidates
    = Ok (Fin (Qmake (Z.of_nat (rows_holding q (rows candidates))) 1)).
Proof.
  intros q [c rs]. unfold top_all_accuracy, eq_broadcast, len2. cbn [rows length].
  destruct rs as [|r [|r' rs]].
  - done.
  - cbn [length Nat.eqb zip_with]. cbn [mbind result_bind].
    change [map (fun x => Z.eqb x q) r]
      with (map (fun row => map (fun x => Z.eqb x q) row) [r]).
    by rewrite sum_any_map.
  - cbn [length Nat.eqb hd]. cbn [mbind result_bind].
    by rewrite sum_any_map.
Qed.





(** X4.  Adding candidate labels to the rows never lowers the accuracy. *)
Theorem top_all_accuracy_more_candidates :
  forall (query_labels : list Z) (t t' : tensor2 Z),
    query_labels <> [] ->
    len2 t = length query_labels ->
    Forall2 (fun r r' => forall x, x ∈ r -> x ∈ r') (rows t) (rows t') ->
    exists a a' : Q,
      top_all_accuracy query_labels t = Ok (Fin a)
      /\ top_all_accuracy query_labels t' = Ok (Fin a')
      /\ (a <= a')%Q.
Proof.
  intros ql t t' Hne Hlen HF.
  assert (0 < length ql)%nat as Hpos by (destruct ql; [done | simpl; lia]).
  assert (len2 t' = length ql) as Hlen'.
  { rewrite <- Hlen. unfold len2. symmetry. by eapply Forall2_length. }
  rewrite !top_all_accuracy_aligned, !true_div_pos by done.
  do 2 eexists. split; [done|]. split; [done|].
  unfold Qle. cbn [Qnum Qden].
  apply Z.mul_le_mono_nonneg_r; [lia|]. apply inj_le. by apply hits_mono.
Qed.

Lemma top_all_accuracy_more_candidates_witness :
  exists a a' : Q,
    top_all_accuracy [1; 2] (Tensor2 1 [[1]; [6]]) = Ok (Fin a)
    /\ top_all_accuracy [1; 2] (Tensor2 2 [[1; 5]; [6; 2]]) = Ok (Fin a')
    /\ (a <= a')%Q.
Proof.
  apply (top_all_accuracy_more_candidates [1; 2] (Tensor2 1 [[1]; [6]])
           (Tensor2 2 [[1; 5]; [6; 2]])); [discriminate | reflexivity |].
  constructor; [|constructor; [|constructor]];
    intros x; rewrite !elem_of_cons, !elem_of_nil; tauto.
Defined.



(** X6.  The accuracy does not depend on the order of the queries:
    reordering the query labels together with their candidate rows leaves
    it unchanged. *)
Theorem top_all_accuracy_reorder :
  forall (ql ql' : list Z) (t t' : tensor2 Z),
    len2 t = length ql -> len2 t' = length ql' ->
    zip ql (rows t) ≡ₚ zip ql' (rows t') ->
    top_all_accuracy ql t = top_all_accuracy ql' t'.
Proof.
  intros ql ql' t t' Hl Hl' Hp.
  rewrite !top_all_accuracy_aligned by done.
  assert (length ql = length ql') as Hn.
  { apply Permutation_length in Hp. rewrite !length_zip in Hp.
    unfold len2 in *. lia. }
  unfold hits. by rewrite Hp, Hn.
Qed.

Lemma top_all_accuracy_reorder_witness :
  top_all_accuracy [1; 2; 3] (Tensor2 2 [[1; 5]; [6; 7]; [3; 8]])
  = top_all_accuracy [3; 1; 2] (Tensor2 2 [[3; 8]; [1; 5]; [6; 7]]).
Proof.
  apply top_all_accuracy_reorder; [reflexivity | reflexivity |].
  cbn. symmetry.
  apply (Permutation_cons_append [(1, [1; 5]); (2, [6; 7])] (3, [3; 8])).
Defined.

(** X7.  Renaming the labels by an injective function, in the query labels
    and in the candidates alike, does not change the result. *)
Theorem top_all_accuracy_relabel :
  forall (f : Z -> Z) (query_labels : list Z) (candidates : tensor2 Z),
    (forall x y, f x = f y -> x = y) ->
    top_all_accuracy (map f query_labels)
      (Tensor2 (ncols candidates) (map (map f) (rows candidates)))
    = top_all_accuracy query_labels candidates.
Proof.
  intros f ql [c rs] Hinj.
  assert (forall q r,
             existsb (fun b => b) (map (fun x => Z.eqb x (f q)) (map f r))
             = existsb (fun b => b) (map (fun x => Z.eqb x q) r)) as Hrow.
  { intros q r. rewrite !existsb_eq_hit. apply bool_decide_ext.
    rewrite list_elem_of_fmap. split.
    - intros (y & Hy & Hin). apply Hinj in Hy. by subst.
    - intros Hin. by exists q. }
  unfold top_all_accuracy, eq_broadcast, len2. cbn [rows ncols].
  rewrite !length_map.
  destruct (Nat.eqb_spec (length rs) (length ql)) as [Hmn|Hmn].
  { cbn [mbind result_bind].
    replace (any_dim1 (zip_with (fun row q => map (fun x => Z.eqb x q) row)
                         (map (map f) rs) (map f ql)))
      with (any_dim1 (zip_with (fun row q => map (fun x => Z.eqb x q) row) rs ql));
      [done|].
    clear Hmn. revert ql.
    induction rs as [|r rs IH]; intros [|q ql]; [done..|].
    unfold any_dim1 in *. cbn [map zip_with]. by rewrite Hrow, IH. }
  destruct (Nat.eqb_spec (length rs) 1) as [Hm|Hm].
  { destruct rs as [|r [|? ?]]; try done. cbn [mbind result_bind map hd].
    replace (any_dim1 (map (fun q => map (fun x => Z.eqb x q) (map f r)) (map f ql)))
      with (any_dim1 (map (fun q => map (fun x => Z.eqb x q) r) ql)); [done|].
    unfold any_dim1. rewrite !map_map. apply map_ext. intros q. by rewrite Hrow. }
  destruct (Nat.eqb_spec (length ql) 1) as [Hn|Hn]; [|done].
  destruct ql as [|q [|? ?]]; try done. cbn [mbind result_bind map hd].
  replace (any_dim1 (map (fun row => map (fun x => Z.eqb x (f q)) row) (map (map f) rs)))
    with (any_dim1 (map (fun row => map (fun x => Z.eqb x q) row) rs)); [done|].
  unfold any_dim1. rewrite !map_map. apply map_ext. intros r. by rewrite Hrow.
Qed.

Lemma top_all_accuracy_relabel_witness :
  top_all_accuracy (map (fun x => x + 100) [1; 2])
    (Tensor2 2 (map (map (fun x => x + 100)) [[1; 5]; [6; 7]]))
  = top_all_accuracy [1; 2] (Tensor2 2 [[1; 5]; [6; 7]]).
Proof.
  apply (top_all_accuracy_relabel (fun x => x + 100) [1; 2] (Tensor2 2 [[1; 5]; [6; 7]])).
  intros x y Hxy. lia.
Defined.

(** * Further properties of [get_score_matrix] *)

Section ScoreMatrixRuns.
Context {R : Type} `{Scalar R} {Imgs : Type}.
Variable model : nn_Module R Imgs.
Variable get_embeddings_fn : option (nn_Module R Imgs -> Imgs -> tensor2 R).

Local Abbreviation embed' := (embed model get_embeddings_fn).
Local Abbreviation aligned' := (aligned model get_embeddings_fn).
Local Abbreviation fits' := (fits model get_embeddings_fn).
Local Abbreviation batch_scores' := (batch_scores model get_embeddings_fn).
Local Abbreviation gallery_loop' := (gallery_loop model get_embeddings_fn).
Local Abbreviation query_loop' := (query_loop model get_embeddings_fn).
Local Abbreviation query_phase' := (query_phase model get_embeddings_fn).
Local Abbreviation get_score_matrix' := (get_score_matrix model get_embeddings_fn).

(** The gallery loop stops at the first batch with a wrong label count. *)
Lemma gallery_loop_stops (good rest : DataLoader Imgs) (bad : Imgs * list Z) E L :
  Forall aligned' good -> ~ aligned' bad ->
  gallery_loop' (good ++ bad :: rest) E L
  = (gallery_events (good ++ [bad]), Err ShapeMismatch).
Proof.
  intros HF Hbad. revert E L.
  induction HF as [|[imgs labels] good Hb _ IH]; intros E L.
  - destruct bad as [imgs labels]. cbn [app ScoreMatrix.gallery_loop].
    destruct (Nat.eqb_spec (length labels) (len2 (embed' imgs))) as [Heq|Hne];
      [by destruct Hbad|].
    by rewrite bind_tell.
  - cbn [app ScoreMatrix.gallery_loop].
    unfold aligned in Hb. cbn [fst snd] in Hb.
    rewrite Hb, Nat.eqb_refl, IH, bind_tell. done.
Qed.

(** The query loop stops at the first batch whose embeddings have another
    width than the gallery embeddings. *)
Lemma query_loop_stops (G : tensor2 R) (good rest : DataLoader Imgs)
    (bad : Imgs * list Z) S QL :
  Forall (fits' G) good -> ~ fits' G bad ->
  query_loop' G (good ++ bad :: rest) S QL
  = (query_events (good ++ [bad]), Err RuntimeError).
Proof.
  intros HF Hbad. revert S QL.
  induction HF as [|[imgs labels] good Hb _ IH]; intros S QL.
  - destruct bad as [imgs labels]. cbn [app ScoreMatrix.query_loop].
    unfold matmul_T.
    destruct (Nat.eqb_spec (ncols (embed' imgs)) (ncols G)) as [Heq|Hne];
      [by destruct Hbad|].
    by rewrite bind_lift_err, bind_tell.
  - cbn [app ScoreMatrix.query_loop].
    pose proof (matmul_T_fits model get_embeddings_fn G _ Hb) as Hm. cbn [fst] in Hm.
    rewrite Hm, bind_lift_ok, IH, bind_tell. done.
Qed.

Lemma cat2_batch_scores (G : tensor2 R) (dl : DataLoader Imgs) :
  dl <> [] ->
  cat2 (map (batch_scores' G) dl)
  = Ok (Tensor2 (len2 G) (concat (map (fun b => rows (batch_scores' G b)) dl))).
Proof.
  intros Hne. destruct dl as [|b dl]; [done|]. unfold cat2. cbn [map].
  rewrite (proj2 (forallb_forall _ _)).
  - cbn [ncols batch_scores]. by rewrite map_map.
  - intros u Hu. apply in_map_iff in Hu as (b' & <- & _). apply Nat.eqb_refl.
Qed.

Lemma query_phase_returns (G : tensor2 R) (gl : list Z) (dl : DataLoader Imgs) :
  dl <> [] -> Forall (fits' G) dl ->
  query_phase' G gl dl
  = (query_events dl,
     Ok (Tensor2 (len2 G) (concat (map (fun b => rows (batch_scores' G b)) dl)),
         concat (map snd dl), gl)).
Proof.
  intros Hne HF. unfold query_phase.
  rewrite (query_loop_fits model get_embeddings_fn G dl [] [] HF). cbn [app].
  rewrite bind_ok. cbn beta iota.
  rewrite cat2_batch_scores by done. rewrite bind_lift_ok.
  destruct dl as [|b dl]; [done|]. cbn [map cat1]. rewrite bind_lift_ok.
  cbn. by rewrite app_nil_r.
Qed.

(** The run, up to the query phase. *)
Lemma get_score_matrix_phases dl_gal dl_quer agg_gal_fn E G gl :
  training model = false ->
  Forall aligned' dl_gal ->
  cat2 (map (fun b => embed' (fst b)) dl_gal) = Ok E ->
  aggregated agg_gal_fn E (concat (map snd dl_gal)) = (G, gl) ->
  get_score_matrix' dl_gal dl_quer agg_gal_fn
  = (gallery_events dl_gal ++ agg_events agg_gal_fn E (concat (map snd dl_gal))
       ++ fst (query_phase' G gl dl_quer),
     snd (query_phase' G gl dl_quer)).
Proof.
  intros Hmode HF HE Hagg. unfold ScoreMatrix.get_score_matrix. rewrite Hmode.
  rewrite (gallery_loop_aligned model get_embeddings_fn dl_gal [] [] HF). cbn [app].
  assert (cat1 (map snd dl_gal) = Ok (concat (map snd dl_gal))) as HL.
  { destruct dl_gal; [done | done]. }
  rewrite bind_ok. cbn beta iota. rewrite HE, bind_lift_ok, HL, bind_lift_ok.
  unfold query_phase.
  destruct agg_gal_fn as [agg|]; cbn [aggregated agg_events] in Hagg |- *.
  - rewrite bind_tell. cbn [mret traced_ret fst snd]. rewrite Hagg.
    cbn [mbind traced_bind].
    destruct (query_loop' G dl_quer [] []) as [t [[Ss QLs]|e]]; cbn; [|done].
    destruct (cat2 Ss); cbn; [|done]. destruct (cat1 QLs); done.
  - injection Hagg as -> ->. cbn.
    destruct (query_loop' G dl_quer [] []) as [t [[Ss QLs]|e]]; cbn; [|done].
    destruct (cat2 Ss); cbn; [|done]. destruct (cat1 QLs); done.
Qed.

Lemma query_phase_stops (G : tensor2 R) (gl : list Z) (good rest : DataLoader Imgs)
    (bad : Imgs * list Z) :
  Forall (fits' G) good -> ~ fits' G bad ->
  query_phase' G gl (good ++ bad :: rest)
  = (query_events (good ++ [bad]), Err RuntimeError).
Proof.
  intros HF Hbad. unfold query_phase.
  by rewrite (query_loop_stops G good rest bad [] [] HF Hbad).
Qed.

Lemma concat_batch_scores (G : tensor2 R) (dl : DataLoader Imgs) :
  concat (map (fun b => rows (batch_scores' G b)) dl)
  = map (score_row G) (all_embeddings model get_embeddings_fn dl).
Proof.
  unfold all_embeddings. induction dl as [|b dl IH]; [done|].
  cbn [map concat]. change (concat (?x :: ?l)) with (x ++ concat l).
  by rewrite List.map_app, IH.
Qed.

Lemma batch_scores_fst (G : tensor2 R) (dl : DataLoader Imgs) :
  map (batch_scores' G) dl
  = map (fun imgs => Tensor2 (len2 G) (map (score_row G) (rows (embed' imgs))))
        (map fst dl).
Proof. by rewrite map_map. Qed.

End ScoreMatrixRuns.

(** X8.  A run returns whenever the model is in inference mode, every
    gallery batch has as many labels as embeddings, the gallery embeddings
    of all batches have one width, there is at least one query batch, and
    the query embeddings are as wide as the gallery embeddings after the
    optional aggregation.  The scores then hold one row per query
    embedding, in arrival order, with the inner products against the rows
    of the gallery. *)
Theorem get_score_matrix_returns_when {R : Type} `{Scalar R} {Imgs : Type} :
  forall (model : nn_Module R Imgs)
         (get_embeddings_fn : option (nn_Module R Imgs -> Imgs -> tensor2 R))
         (dl_gal dl_quer : DataLoader Imgs)
         (agg_gal_fn : option (tensor2 R -> list Z -> tensor2 R * list Z))
         (E G : tensor2 R) (gal_labels : list Z),
    training model = false ->
    Forall (aligned model get_embeddings_fn) dl_gal ->
    cat2 (map (fun b => embed model get_embeddings_fn (fst b)) dl_gal) = Ok E ->
    aggregated agg_gal_fn E (concat (map snd dl_gal)) = (G, gal_labels) ->
    dl_quer <> [] ->
    Forall (fits model get_embeddings_fn G) dl_quer ->
    get_score_matrix model get_embeddings_fn dl_gal dl_quer agg_gal_fn
    = (gallery_events dl_gal ++ agg_events agg_gal_fn E (concat (map snd dl_gal))
         ++ query_events dl_quer,
       Ok (Tensor2 (len2 G)
             (map (score_row G) (all_embeddings model get_embeddings_fn dl_quer)),
           concat (map snd dl_quer), gal_labels)).
Proof.
  intros model fn dl_gal dl_quer agg E G gl Hmode HF HE Hagg Hne HQ.
  rewrite (get_score_matrix_phases model fn dl_gal dl_quer agg E G gl) by done.
  rewrite query_phase_returns by done. cbn [fst snd].
  by rewrite concat_batch_scores.
Qed.

Lemma get_score_matrix_returns_when_witness :
  get_score_matrix demo_model None demo_gallery demo_queries (Some first_of_each)
  = (gallery_events demo_gallery
       ++ agg_events (Some first_of_each) (Tensor2 2 [[1; 1]; [2; 1]; [3; 1]])
            (concat (map snd demo_gallery))
       ++ query_events demo_queries,
     Ok (Tensor2 (len2 (Tensor2 2 [[1; 1]]))
           (map (score_row (Tensor2 2 [[1; 1]]))
                (all_embeddings demo_model None demo_queries)),
         concat (map snd demo_queries), [10])).
Proof.
  apply (get_score_matrix_returns_when demo_model None demo_gallery demo_queries
           (Some first_of_each) (Tensor2 2 [[1; 1]; [2; 1]; [3; 1]])
           (Tensor2 2 [[1; 1]]) [10]).
  - reflexivity.
  - repeat constructor.
  - reflexivity.
  - reflexivity.
  - discriminate.
  - repeat constructor.
Defined.

(** X9.  With the model in inference mode, an empty gallery loader makes
    the run fail inside torch before anything else happens, and an empty
    query loader makes it fail after the gallery has been consumed and
    aggregated: [torch.cat] does not take an empty list. *)
Theorem get_score_matrix_empty_loader {R : Type} `{Scalar R} {Imgs : Type} :
  forall (model : nn_Module R Imgs)
         (get_embeddings_fn : option (nn_Module R Imgs -> Imgs -> tensor2 R))
         (agg_gal_fn : option (tensor2 R -> list Z -> tensor2 R * list Z)),
    training model = false ->
    (forall dl_quer,
        get_score_matrix model get_embeddings_fn [] dl_quer agg_gal_fn
        = ([], Err RuntimeError))
    /\ (forall dl_gal E,
          Forall (aligned model get_embeddings_fn) dl_gal ->
          cat2 (map (fun b => embed model get_embeddings_fn (fst b)) dl_gal) = Ok E ->
          get_score_matrix model get_embeddings_fn dl_gal [] agg_gal_fn
          = (gallery_events dl_gal
               ++ agg_events agg_gal_fn E (concat (map snd dl_gal)),
             Err RuntimeError)).
Proof.
  intros model fn agg Hmode. split.
  - intros dl_quer. unfold get_score_matrix. by rewrite Hmode.
  - intros dl_gal E HF HE.
    destruct (aggregated agg E (concat (map snd dl_gal))) as [G gl] eqn:Hagg.
    rewrite (get_score_matrix_phases model fn dl_gal [] agg E G gl) by done.
    cbn. by rewrite app_nil_r.
Qed.

Lemma get_score_matrix_empty_loader_witness :
  get_score_matrix demo_model None [] demo_queries None = ([], Err RuntimeError)
  /\ get_score_matrix demo_model None demo_gallery [] (Some first_of_each)
     = ([GalleryBatch [1; 2] [10; 11]; GalleryBatch [3] [12];
         AggGal (Tensor2 2 [[1; 1]; [2; 1]; [3; 1]]) [10; 11; 12]],
        Err RuntimeError).
Proof.
  destruct (get_score_matrix_empty_loader demo_model None (Some first_of_each) eq_refl)
    as [_ Hq].
  destruct (get_score_matrix_empty_loader demo_model None None eq_refl) as [Hg _].
  split; [apply Hg|].
  apply (Hq demo_gallery (Tensor2 2 [[1; 1]; [2; 1]; [3; 1]]));
    [repeat constructor | reflexivity].
Defined.

(** X10.  The first gallery batch whose label count differs from its
    embedding count stops the run with [ShapeMismatch]: the batches after
    it are not pulled, the aggregation function is not called and no query
    batch is pulled. *)
Theorem get_score_matrix_stops_at_gallery_mismatch
    {R : Type} `{Scalar R} {Imgs : Type} :
  forall (model : nn_Module R Imgs)
         (get_embeddings_fn : option (nn_Module R Imgs -> Imgs -> tensor2 R))
         (good rest dl_quer : DataLoader Imgs) (bad : Imgs * list Z)
         (agg_gal_fn : option (tensor2 R -> list Z -> tensor2 R * list Z)),
    training model = false ->
    Forall (aligned model get_embeddings_fn) good ->
    ~ aligned model get_embeddings_fn bad ->
    get_score_matrix model get_embeddings_fn (good ++ bad :: rest) dl_quer agg_gal_fn
    = (gallery_events (good ++ [bad]), Err ShapeMismatch).
Proof.
  intros model fn good rest dl_quer bad agg Hmode HF Hbad.
  unfold get_score_matrix. rewrite Hmode.
  by rewrite (gallery_loop_stops model fn good rest bad [] [] HF Hbad).
Qed.

Lemma get_score_matrix_stops_at_gallery_mismatch_witness :
  get_score_matrix demo_model None
    ([([1; 2], [10; 11])] ++ ([3], [12; 13]) :: [([4], [14])])
    demo_queries (Some first_of_each)
  = (gallery_events ([([1; 2], [10; 11])] ++ [([3], [12; 13])]), Err ShapeMismatch).
Proof.
  apply get_score_matrix_stops_at_gallery_mismatch.
  - reflexivity.
  - repeat constructor.
  - cbv. discriminate.
Defined.

(** X11.  A run fails with [ShapeMismatch] exactly when the model is in
    inference mode and some gallery batch has a label count different from
    its embedding count; the query batches have no part in it. *)
Theorem shape_mismatch_iff_gallery_misaligned {R : Type} `{Scalar R} {Imgs : Type} :
  forall (model : nn_Module R Imgs)
         (get_embeddings_fn : option (nn_Module R Imgs -> Imgs -> tensor2 R))
         (dl_gal dl_quer : DataLoader Imgs)
         (agg_gal_fn : option (tensor2 R -> list Z -> tensor2 R * list Z)),
    (exists t,
        get_score_matrix model get_embeddings_fn dl_gal dl_quer agg_gal_fn
        = (t, Err ShapeMismatch))
    <-> training model = false
        /\ Exists (fun b => ~ aligned model get_embeddings_fn b) dl_gal.
Proof.
  intros model fn dl_gal dl_quer agg. split.
  - intros [t Hrun].
    apply get_score_matrix_raises in Hrun as [(? & _)|[(_ & ? & ?)|(? & _)]]; done.
  - intros [Hmode HE]. by apply gallery_mismatch_raises.
Qed.

(** X12.  After the gallery phase, the first query batch whose embeddings
    have another width than the gallery embeddings stops the run inside
    [torch.matmul]; the batches after it are not pulled. *)
Theorem get_score_matrix_stops_at_query_misfit {R : Type} `{Scalar R} {Imgs : Type} :
  forall (model : nn_Module R Imgs)
         (get_embeddings_fn : option (nn_Module R Imgs -> Imgs -> tensor2 R))
         (dl_gal good rest : DataLoader Imgs) (bad : Imgs * list Z)
         (agg_gal_fn : option (tensor2 R -> list Z -> tensor2 R * list Z))
         (E G : tensor2 R) (gal_labels : list Z),
    training model = false ->
    Forall (aligned model get_embeddings_fn) dl_gal ->
    cat2 (map (fun b => embed model get_embeddings_fn (fst b)) dl_gal) = Ok E ->
    aggregated agg_gal_fn E (concat (map snd dl_gal)) = (G, gal_labels) ->
    Forall (fits model get_embeddings_fn G) good ->
    ~ fits model get_embeddings_fn G bad ->
    get_score_matrix model get_embeddings_fn dl_gal (good ++ bad :: rest) agg_gal_fn
    = (gallery_events dl_gal ++ agg_events agg_gal_fn E (concat (map snd dl_gal))
         ++ query_events (good ++ [bad]),
       Err RuntimeError).
Proof.
  intros model fn dl_gal good rest bad agg E G gl Hmode HF HE Hagg HQ Hbad.
  rewrite (get_score_matrix_phases model fn dl_gal _ agg E G gl) by done.
  by rewrite query_phase_stops.
Qed.

Lemma get_score_matrix_stops_at_query_misfit_witness :
  get_score_matrix demo_model (Some wider_for_batches) single_gallery
    ([([1], [10])] ++ ([5; 6], [12; 13]) :: [([7], [14])]) None
  = (gallery_events single_gallery
       ++ agg_events None (Tensor2 2 [[1; 1]; [2; 1]]) (concat (map snd single_gallery))
       ++ query_events ([([1], [10])] ++ [([5; 6], [12; 13])]),
     Err RuntimeError).
Proof.
  apply (get_score_matrix_stops_at_query_misfit demo_model (Some wider_for_batches)
           single_gallery [([1], [10])] [([7], [14])] ([5; 6], [12; 13]) None
           (Tensor2 2 [[1; 1]; [2; 1]]) (Tensor2 2 [[1; 1]; [2; 1]]) [10; 11]).
  - reflexivity.
  - repeat constructor.
  - reflexivity.
  - reflexivity.
  - repeat constructor.
  - cbv. discriminate.
Defined.

(** X13.  The result depends on the query loader only through the
    embeddings and the labels taken in arrival order: grouping the same
    queries into other batches returns the same scores and labels. *)
Theorem get_score_matrix_regroup_queries {R : Type} `{Scalar R} {Imgs : Type} :
  forall (model : nn_Module R Imgs)
         (get_embeddings_fn : option (nn_Module R Imgs -> Imgs -> tensor2 R))
         (dl_gal dl_quer dl_quer' : DataLoader Imgs)
         (agg_gal_fn : option (tensor2 R -> list Z -> tensor2 R * list Z))
         (t t' : list (event R Imgs)) (r r' : tensor2 R * list Z * list Z),
    get_score_matrix model get_embeddings_fn dl_gal dl_quer agg_gal_fn = (t, Ok r) ->
    get_score_matrix model get_embeddings_fn dl_gal dl_quer' agg_gal_fn = (t', Ok r') ->
    all_embeddings model get_embeddings_fn dl_quer
    = all_embeddings model get_embeddings_fn dl_quer' ->
    concat (map snd dl_quer) = concat (map snd dl_quer') ->
    r = r'.
Proof.
  intros model fn dl_gal dl_quer dl_quer' agg t t' [[s ql] gl] [[s' ql'] gl']
    Hrun Hrun' Hemb Hlab.
  apply get_score_matrix_returns in Hrun
    as (_ & _ & E & L & G & HE & HL & Hagg & _ & HS & HQL & _).
  apply get_score_matrix_returns in Hrun'
    as (_ & _ & E' & L' & G' & HE' & HL' & Hagg' & _ & HS' & HQL' & _).
  rewrite HE in HE'. injection HE' as <-.
  rewrite HL in HL'. injection HL' as <-.
  rewrite Hagg in Hagg'. injection Hagg' as <- <-.
  apply cat1_returns in HQL as (-> & Hne). apply cat1_returns in HQL' as (-> & Hne').
  rewrite cat2_batch_scores in HS by (by destruct dl_quer).
  rewrite cat2_batch_scores in HS' by (by destruct dl_quer').
  injection HS as <-. injection HS' as <-.
  pose proof (concat_batch_scores model fn G dl_quer) as Hc.
  pose proof (concat_batch_scores model fn G dl_quer') as Hc'.
  cbn [batch_scores rows] in Hc, Hc'.
  by rewrite Hc, Hc', Hemb, Hlab.
Qed.

Lemma get_score_matrix_regroup_queries_witness :
  exists r r' : tensor2 Z * list Z * list Z,
    get_score_matrix demo_model None demo_gallery demo_queries None
    = (gallery_events demo_gallery ++ query_events demo_queries, Ok r)
    /\ get_score_matrix demo_model None demo_gallery demo_queries_regrouped None
       = (gallery_events demo_gallery ++ query_events demo_queries_regrouped, Ok r')
    /\ r = r'.
Proof.
  do 2 eexists. split; [reflexivity|]. split; [reflexivity|].
  apply (get_score_matrix_regroup_queries demo_model None demo_gallery
           demo_queries demo_queries_regrouped None
           (gallery_events demo_gallery ++ query_events demo_queries)
           (gallery_events demo_gallery ++ query_events demo_queries_regrouped));
    reflexivity.
Defined.

(** X14.  Whatever the batches and the aggregation, a run that returns
    gives a well-formed score matrix with one row per query embedding and
    the query labels in arrival order; without an aggregation function it
    has one column per gallery label, and the gallery labels are those of
    the gallery batches in arrival order. *)
Theorem get_score_matrix_unconditional_shape {R : Type} `{Scalar R} {Imgs : Type} :
  forall (model : nn_Module R Imgs)
         (get_embeddings_fn : option (nn_Module R Imgs -> Imgs -> tensor2 R))
         (dl_gal dl_quer : DataLoader Imgs)
         (agg_gal_fn : option (tensor2 R -> list Z -> tensor2 R * list Z))
         (t : list (event R Imgs)) (scores : tensor2 R) (quer_labels gal_labels : list Z),
    get_score_matrix model get_embeddings_fn dl_gal dl_quer agg_gal_fn
    = (t, Ok (scores, quer_labels, gal_labels)) ->
    wf_tensor2 scores
    /\ len2 scores = length (all_embeddings model get_embeddings_fn dl_quer)
    /\ quer_labels = concat (map snd dl_quer)
    /\ (agg_gal_fn = None ->
        ncols scores = length gal_labels
        /\ gal_labels = concat (map snd dl_gal)).
Proof.
  intros model fn dl_gal dl_quer agg t scores ql gl Hrun.
  apply get_score_matrix_returns in Hrun
    as (_ & HAg & E & L & G & HE & HL & Hagg & _ & HS & HQL & _).
  apply cat1_returns in HQL as (-> & Hne).
  rewrite cat2_batch_scores in HS by (by destruct dl_quer).
  injection HS as <-.
  pose proof (concat_batch_scores model fn G dl_quer) as Hc.
  cbn [batch_scores rows] in Hc. rewrite Hc. clear Hc.
  split; [|split; [|split]].
  - unfold wf_tensor2. cbn [rows ncols]. apply Forall_fmap, Forall_forall.
    intros u _. cbn. unfold score_row, len2. by rewrite length_map.
  - unfold len2. cbn [rows]. by rewrite length_map.
  - done.
  - intros ->. cbn in Hagg. injection Hagg as <- <-. cbn [ncols].
    apply cat1_returns in HL as (-> & _). split; [|done].
    apply cat2_returns in HE as (HErows & _ & _). unfold len2. rewrite HErows, map_map.
    apply length_concat_map.
    eapply Forall_impl; [exact HAg|]. intros b Hb. by symmetry.
Qed.

Lemma get_score_matrix_unconditional_shape_witness :
  wf_tensor2 (Tensor2 2 [[6; 11]])
  /\ len2 (Tensor2 2 [[6; 11]])
     = length (all_embeddings demo_model (Some first_image_only) pair_queries)
  /\ [12; 13] = concat (map snd pair_queries)
  /\ (@None (tensor2 Z -> list Z -> tensor2 Z * list Z) = None ->
      ncols (Tensor2 2 [[6; 11]]) = length [10; 11]
      /\ [10; 11] = concat (map snd single_gallery)).
Proof.
  apply (get_score_matrix_unconditional_shape demo_model (Some first_image_only)
           single_gallery pair_queries None
           [GalleryBatch [1] [10]; GalleryBatch [2] [11]; QueryBatch [5; 6] [12; 13]]).
  reflexivity.
Defined.

(** X15.  Without an aggregation function the scores do not depend on the
    labels: two runs over loaders that yield the same image batches return
    the same score matrix, whatever labels come with the batches. *)
Theorem get_score_matrix_scores_ignore_labels {R : Type} `{Scalar R} {Imgs : Type} :
  forall (model : nn_Module R Imgs)
         (get_embeddings_fn : option (nn_Module R Imgs -> Imgs -> tensor2 R))
         (dl_gal dl_gal' dl_quer dl_quer' : DataLoader Imgs)
         (t t' : list (event R Imgs)) (scores scores' : tensor2 R)
         (ql ql' gl gl' : list Z),
    get_score_matrix model get_embeddings_fn dl_gal dl_quer None
    = (t, Ok (scores, ql, gl)) ->
    get_score_matrix model get_embeddings_fn dl_gal' dl_quer' None
    = (t', Ok (scores', ql', gl')) ->
    map fst dl_gal = map fst dl_gal' ->
    map fst dl_quer = map fst dl_quer' ->
    scores = scores'.
Proof.
  intros model fn dl_gal dl_gal' dl_quer dl_quer' t t' s s' ql ql' gl gl'
    Hrun Hrun' Hgal Hquer.
  apply get_score_matrix_returns in Hrun
    as (_ & _ & E & L & G & HE & _ & Hagg & _ & HS & _ & _).
  apply get_score_matrix_returns in Hrun'
    as (_ & _ & E' & L' & G' & HE' & _ & Hagg' & _ & HS' & _ & _).
  cbn in Hagg, Hagg'. injection Hagg as <- _. injection Hagg' as <- _.
  rewrite <- (map_map fst (embed model fn)) in HE, HE'.
  rewrite Hgal, HE' in HE. injection HE as <-.
  rewrite batch_scores_fst in HS, HS'. rewrite Hquer, HS' in HS.
  by injection HS.
Qed.

Lemma get_score_matrix_scores_ignore_labels_witness :
  exists scores scores' : tensor2 Z,
    get_score_matrix demo_model None demo_gallery demo_queries None
    = (gallery_events demo_gallery ++ query_events demo_queries,
       Ok (scores, [10; 12; 13], [10; 11; 12]))
    /\ get_score_matrix demo_model None
         [([1; 2], [70; 71]); ([3], [72])] [([1], [80]); ([5; 6], [81; 82])] None
       = (gallery_events [([1; 2], [70; 71]); ([3], [72])]
            ++ query_events [([1], [80]); ([5; 6], [81; 82])],
          Ok (scores', [80; 81; 82], [70; 71; 72]))
    /\ scores = scores'.
Proof.
  do 2 eexists. split; [reflexivity|]. split; [reflexivity|].
  apply (get_score_matrix_scores_ignore_labels demo_model None
           demo_gallery [([1; 2], [70; 71]); ([3], [72])]
           demo_queries [([1], [80]); ([5; 6], [81; 82])]
           (gallery_events demo_gallery ++ query_events demo_queries)
           (gallery_events [([1; 2], [70; 71]); ([3], [72])]
              ++ query_events [([1], [80]); ([5; 6], [81; 82])])
           _ _ [10; 12; 13] [80; 81; 82] [10; 11; 12] [70; 71; 72]);
    reflexivity.
Defined.

(** * Further properties of [get_train_val_datasets] *)

Section LabelMapFacts.
Context {Cell : Type} `{Countable Cell}.

Lemma filter_not_in_nil (l : list Cell) : filter (fun y => y ∉ []) l = l.
Proof.
  induction l as [|y l IH]; [done|].
  rewrite filter_cons_True by apply not_elem_of_nil. by rewrite IH.
Qed.

Lemma unique_app (l1 l2 : list Cell) :
  unique (l1 ++ l2) = unique l1 ++ filter (fun y => y ∉ l1) (unique l2).
Proof.
  induction l1 as [|x l1 IH].
  - cbn [app unique]. by rewrite filter_not_in_nil.
  - cbn [app unique]. rewrite IH, filter_app. f_equal. f_equal.
    rewrite list_filter_filter. apply list_filter_iff. intros y.
    rewrite not_elem_of_cons. tauto.
Qed.

(** A label that is new after [l1] gets the number of distinct labels of
    [l1]. *)
Lemma enumerate_dict_first_appearance (l1 l2 : list Cell) (x : Cell) :
  x ∉ l1 ->
  enumerate_dict (unique (l1 ++ x :: l2)) !! x = Some (length (unique l1)).
Proof.
  intros Hx. apply enumerate_dict_lookup; [apply NoDup_unique|].
  rewrite unique_app. cbn [unique]. rewrite filter_cons_True by done.
  by rewrite list_lookup_middle.
Qed.

Lemma enumerate_dict_total (df : DataFrame Cell) (key : string) (r : Row Cell) :
  r ∈ df ->
  exists i, enumerate_dict (unique (column df key)) !! r key = Some i
            /\ (i < size (LabelSet df key))%nat.
Proof.
  intros Hr. destruct (enumerate_dict_dense df key) as (Hdom & Hlt & _).
  assert (r key ∈ dom (enumerate_dict (unique (column df key)))) as Hin.
  { rewrite Hdom. apply elem_of_LabelSet. eauto. }
  apply elem_of_dom in Hin as [i Hi]. exists i. split; [done|]. by eapply Hlt.
Qed.

End LabelMapFacts.

(** X16.  The integer of a label is the number of distinct labels that
    occur before its first record: in the validation records for the map
    of the gallery and query datasets, in the train records for the map of
    the train dataset. *)
Theorem label_integer_counts_earlier_labels {Cell : Type} `{Countable Cell}
    {Transform : Type} :
  forall (read_csv : string -> DataFrame Cell)
         (kfold_split :
            DataFrame Cell -> Z -> Z -> Z -> string
            -> result (DataFrame Cell * DataFrame Cell))
         (gallery_query_split :
            DataFrame Cell -> Z -> Z -> string
            -> result (DataFrame Cell * DataFrame Cell))
         (data_csv_file label_key image_key : string)
         (num_folds val_fold k_fold_seed n_refs rand_ref_seed : Z)
         (tfm_train tfm_val : option Transform)
         (ds_train ds_gal ds_quer : DataFrameDataset Cell Transform)
         (df_train df_val : DataFrame Cell),
    get_train_val_datasets read_csv kfold_split gallery_query_split
      data_csv_file label_key image_key num_folds val_fold k_fold_seed
      n_refs rand_ref_seed tfm_train tfm_val
    = Ok (ds_train, ds_gal, ds_quer) ->
    kfold_split (read_csv data_csv_file) num_folds val_fold k_fold_seed label_key
    = Ok (df_train, df_val) ->
    (forall (pre post : DataFrame Cell) (r : Row Cell),
        df_val = pre ++ r :: post ->
        r label_key ∉ column pre label_key ->
        ds_label_to_int ds_gal !! r label_key = Some (size (LabelSet pre label_key))
        /\ ds_label_to_int ds_quer !! r label_key
           = Some (size (LabelSet pre label_key)))
    /\ (forall (pre post : DataFrame Cell) (r : Row Cell),
          df_train = pre ++ r :: post ->
          r label_key ∉ column pre label_key ->
          ds_label_to_int ds_train !! r label_key
          = Some (size (LabelSet pre label_key))).
Proof.
  intros read_csv kfold_split gallery_query_split file label_key image_key
    num_folds val_fold k_fold_seed n_refs rand_ref_seed tfm_train tfm_val
    ds_train ds_gal ds_quer df_train df_val.
  unfold get_train_val_datasets. intros Hrun Hsplit. rewrite Hsplit in Hrun.
  cbn in Hrun.
  destruct (gallery_query_split _ _ _ _) as [[df_gal df_quer]|e]; [|done].
  cbn in Hrun. injection Hrun as <- <- <-. cbn [ds_label_to_int].
  assert (forall (pre post : DataFrame Cell) (r : Row Cell),
             r label_key ∉ column pre label_key ->
             enumerate_dict (unique (column (pre ++ r :: post) label_key)) !! r label_key
             = Some (size (LabelSet pre label_key))) as Hfirst.
  { intros pre post r Hr. rewrite size_LabelSet. unfold column at 1.
    rewrite List.map_app. cbn [map]. by apply enumerate_dict_first_appearance. }
  split.
  - intros pre post r -> Hr. split; by apply Hfirst.
  - intros pre post r -> Hr. by apply Hfirst.
Qed.

Lemma label_integer_counts_earlier_labels_witness :
  exists ds_train ds_gal ds_quer : DataFrameDataset string unit,
    get_train_val_datasets (fun _ => demo_csv)
      (label_based_k_fold_trainval_split rot_shuffle) (split_gallery_query rot_shuffle)
      "data.csv" "label" "image" 2 0 0 1 0 None None
    = Ok (ds_train, ds_gal, ds_quer)
    /\ ds_label_to_int ds_gal !! "B" = Some (size (LabelSet [mk_row "A" "a0.png"] "label"))
    /\ ds_label_to_int ds_quer !! "B" = Some (size (LabelSet [mk_row "A" "a0.png"] "label")).
Proof.
  destruct (get_train_val_datasets (Transform := unit) (fun _ => demo_csv)
              (label_based_k_fold_trainval_split rot_shuffle)
              (split_gallery_query rot_shuffle)
              "data.csv" "label" "image" 2 0 0 1 0 None None)
    as [[[ds_train ds_gal] ds_quer]|e] eqn:Hrun; [|by vm_compute in Hrun].
  exists ds_train, ds_gal, ds_quer. split; [done|].
  apply (proj1 (label_integer_counts_earlier_labels _ _ _ _ _ _ _ _ _ _ _ _ _ _ _ _
                  [mk_row "C" "c0.png"; mk_row "C" "c1.png"]
                  [mk_row "A" "a0.png"; mk_row "B" "b0.png"; mk_row "A" "a1.png";
                   mk_row "B" "b1.png"; mk_row "A" "a2.png"]
                  Hrun eq_refl)
           [mk_row "A" "a0.png"]
           [mk_row "A" "a1.png"; mk_row "B" "b1.png"; mk_row "A" "a2.png"]
           (mk_row "B" "b0.png")).
  - reflexivity.
  - cbn. rewrite elem_of_cons, elem_of_nil. intros [?|[]]. discriminate.
Defined.

(** X17.  In every result, the label of every train record has an integer
    in the map of the train dataset, below the number of distinct train
    labels.  The same holds for the gallery and the query dataset and the
    number of distinct validation labels, provided the gallery/query split
    hands back records whose labels occur in the validation records it was
    given. *)
Theorem dataset_labels_have_integers {Cell : Type} `{Countable Cell}
    {Transform : Type} :
  forall (read_csv : string -> DataFrame Cell)
         (kfold_split :
            DataFrame Cell -> Z -> Z -> Z -> string
            -> result (DataFrame Cell * DataFrame Cell))
         (gallery_query_split :
            DataFrame Cell -> Z -> Z -> string
            -> result (DataFrame Cell * DataFrame Cell))
         (data_csv_file label_key image_key : string)
         (num_folds val_fold k_fold_seed n_refs rand_ref_seed : Z)
         (tfm_train tfm_val : option Transform)
         (ds_train ds_gal ds_quer : DataFrameDataset Cell Transform)
         (df_train df_val : DataFrame Cell),
    get_train_val_datasets read_csv kfold_split gallery_query_split
      data_csv_file label_key image_key num_folds val_fold k_fold_seed
      n_refs rand_ref_seed tfm_train tfm_val
    = Ok (ds_train, ds_gal, ds_quer) ->
    kfold_split (read_csv data_csv_file) num_folds val_fold k_fold_seed label_key
    = Ok (df_train, df_val) ->
    (forall r, r ∈ ds_df ds_train ->
       exists i, ds_label_to_int ds_train !! r (ds_label_key ds_train) = Some i
                 /\ (i < size (LabelSet df_train label_key))%nat)
    /\ (LabelSet (ds_df ds_gal) label_key ⊆ LabelSet df_val label_key ->
        forall r, r ∈ ds_df ds_gal ->
          exists i, ds_label_to_int ds_gal !! r (ds_label_key ds_gal) = Some i
                    /\ (i < size (LabelSet df_val label_key))%nat)
    /\ (LabelSet (ds_df ds_quer) label_key ⊆ LabelSet df_val label_key ->
        forall r, r ∈ ds_df ds_quer ->
          exists i, ds_label_to_int ds_quer !! r (ds_label_key ds_quer) = Some i
                    /\ (i < size (LabelSet df_val label_key))%nat).
Proof.
  intros read_csv kfold_split gallery_query_split file label_key image_key
    num_folds val_fold k_fold_seed n_refs rand_ref_seed tfm_train tfm_val
    ds_train ds_gal ds_quer df_train df_val.
  unfold get_train_val_datasets. intros Hrun Hsplit. rewrite Hsplit in Hrun.
  cbn in Hrun.
  destruct (gallery_query_split _ _ _ _) as [[df_gal df_quer]|e]; [|done].
  cbn in Hrun. injection Hrun as <- <- <-.
  cbn [ds_label_to_int ds_df ds_label_key].
  assert (forall df : DataFrame Cell,
             LabelSet df label_key ⊆ LabelSet df_val label_key ->
             forall r, r ∈ df ->
               exists i, enumerate_dict (unique (column df_val label_key)) !! r label_key
                         = Some i
                         /\ (i < size (LabelSet df_val label_key))%nat) as Hsub.
  { intros df Hdf r Hr.
    destruct (enumerate_dict_dense df_val label_key) as (Hdom & Hlt & _).
    assert (r label_key ∈ dom (enumerate_dict (unique (column df_val label_key))))
      as Hin.
    { rewrite Hdom. apply Hdf, elem_of_LabelSet. eauto. }
    apply elem_of_dom in Hin as [i Hi]. exists i. split; [done|]. by eapply Hlt. }
  split; [|split].
  - intros r Hr. by apply enumerate_dict_total.
  - apply Hsub.
  - apply Hsub.
Qed.

Lemma dataset_labels_have_integers_witness :
  exists ds_train ds_gal ds_quer : DataFrameDataset string unit,
    get_train_val_datasets (fun _ => demo_csv)
      (label_based_k_fold_trainval_split rot_shuffle) (split_gallery_query rot_shuffle)
      "data.csv" "label" "image" 2 0 0 1 0 None None
    = Ok (ds_train, ds_gal, ds_quer)
    /\ (forall r, r ∈ ds_df ds_gal ->
          exists i, ds_label_to_int ds_gal !! r (ds_label_key ds_gal) = Some i
                    /\ (i < 2)%nat).
Proof.
  destruct (get_train_val_datasets (Transform := unit) (fun _ => demo_csv)
              (label_based_k_fold_trainval_split rot_shuffle)
              (split_gallery_query rot_shuffle)
              "data.csv" "label" "image" 2 0 0 1 0 None None)
    as [[[ds_train ds_gal] ds_quer]|e] eqn:Hrun; [|by vm_compute in Hrun].
  exists ds_train, ds_gal, ds_quer. split; [done|].
  destruct (dataset_labels_have_integers _ _ _ _ _ _ _ _ _ _ _ _ _ _ _ _
              [mk_row "C" "c0.png"; mk_row "C" "c1.png"]
              [mk_row "A" "a0.png"; mk_row "B" "b0.png"; mk_row "A" "a1.png";
               mk_row "B" "b1.png"; mk_row "A" "a2.png"]
              Hrun eq_refl) as (_ & Hgal & _).
  vm_compute in Hrun. injection Hrun as <- <- <-.
  apply Hgal. cbn [ds_df]. intros x. unfold LabelSet.
  rewrite !elem_of_list_to_set. cbn. rewrite !elem_of_cons, !elem_of_nil. tauto.
Defined.
